(** * QGAN.py: a quantum generative adversarial network script

    A shallow embedding of [src/code/QGAN.py]: the data loader, the
    normalizer, the discriminator and generator quantum nodes, the cost
    functions and the discriminator optimization loop.

    The script computes on NumPy [float64] values.  Its arithmetic is written
    once, over an interface [Scalar], and read in two ways:

    - [RealScalar]: exact real arithmetic, where the algebraic properties of
      the script are proved;
    - [Binary64.scalar]: IEEE-754 binary64 with round-to-nearest-even, as
      specified by the standard library's [SpecFloat], where the script can
      be run on concrete inputs, including zeros, infinities and NaN.

    What the assertions of the script guarantee is stated for any
    arithmetic.  The affine map from expectation values to probabilities,
    and the ranges of the costs that follow from it, are stated in exact
    arithmetic.  What zeros, rounding, overflow and underflow do to the
    normalizer is stated in binary64. *)

From Stdlib Require Import List ZArith Bool Lia Reals Lra Permutation.
From Stdlib Require Import Floats.SpecFloat.
Import ListNotations.

Set Implicit Arguments.

(** ** Scalars *)

Class Scalar (F : Type) : Type := {
  of_int : Z -> F;          (* a Python int used where a float is expected *)
  fadd : F -> F -> F;
  fsub : F -> F -> F;
  fmul : F -> F -> F;
  fdiv : F -> F -> F;
  fneg : F -> F;
  fabs : F -> F;            (* np.abs *)
  fsqrt : F -> F;           (* np.sqrt *)
  fle : F -> F -> bool      (* <=, and >= with the operands swapped *)
}.

Definition Rleb (a b : R) : bool := if Rle_dec a b then true else false.

#[export] Instance RealScalar : Scalar R := {
  of_int := IZR;
  fadd := Rplus;
  fsub := Rminus;
  fmul := Rmult;
  fdiv := Rdiv;
  fneg := Ropp;
  fabs := Rabs;
  fsqrt := sqrt;
  fle := Rleb
}.

Module Binary64.
Definition prec : Z := 53.
Definition emax : Z := 1024.
Definition float : Type := spec_float.

Definition of_Z (z : Z) : float := binary_normalize prec emax z 0 false.

Definition nan : float := S754_nan.
Definition pzero : float := S754_zero false.
Definition is_nan (x : float) : bool :=
  match x with S754_nan => true | _ => false end.

#[export] Instance scalar : Scalar float := {
  of_int := of_Z;
  fadd := SFadd prec emax;
  fsub := SFsub prec emax;
  fmul := SFmul prec emax;
  fdiv := SFdiv prec emax;
  fneg := SFopp;
  fabs := SFabs;
  fsqrt := SFsqrt prec emax;
  fle := SFleb
}.
End Binary64.

(** ** Exceptions *)

Inductive exn : Type :=
  AssertionError | IndexError | ValueError | DeviceError.

Inductive result (A : Type) : Type :=
| Ok (a : A)
| Raise (e : exn).
Arguments Ok {A} a.
Arguments Raise {A} e.

Definition rbind {A B} (m : result A) (k : A -> result B) : result B :=
  match m with
  | Ok a => k a
  | Raise e => Raise e
  end.

Declare Scope result_scope.
Delimit Scope result_scope with result.
Notation "x <- m ;; k" := (rbind m (fun x => k))
  (at level 61, m at next level, right associativity) : result_scope.

(** [for x in xs: ...] where the body may raise, collecting the results. *)
Fixpoint rmap {A B} (f : A -> result B) (xs : list A) : result (list B) :=
  match xs with
  | [] => Ok []
  | x :: xs' =>
      (y <- f x ;; ys <- rmap f xs' ;; Ok (y :: ys))%result
  end.

(** ** NumPy indexing

    [a[j]] on the first axis: a negative [j] counts from the end, and an
    index outside [-len, len) raises [IndexError]. *)
Definition np_index {A} (a : list A) (j : Z) : result A :=
  let len := Z.of_nat (length a) in
  let k := if (j <? 0)%Z then (j + len)%Z else j in
  if ((0 <=? k) && (k <? len))%Z then
    match nth_error a (Z.to_nat k) with
    | Some x => Ok x
    | None => Raise IndexError
    end
  else Raise IndexError.

(** [range(k)] *)
Definition range (k : nat) : list nat := seq 0 k.

(** ** Pre-processing of real data (lines 46-59) *)

Section Loader.
Context {F : Type} {SF : Scalar F}.

(** What [np.loadtxt] hands back: it squeezes the table it read, so a
    file with one line (or one column) comes back as a one-dimensional
    array, and a single number as a zero-dimensional one. *)
Inductive ndarray : Type :=
| Array0 (x : F)
| Array1 (xs : list F)
| Array2 (rows : list (list F)).

Definition is_empty {A} (l : list A) : bool :=
  match l with [] => true | _ => false end.

(** [np.loadtxt(path)], on the numeric fields of the lines of the file.
    Lines without fields are skipped; lines of different widths raise
    [ValueError]. *)
Definition loadtxt (lines : list (list F)) : result ndarray :=
  match filter (fun l => negb (is_empty l)) lines with
  | [] => Ok (Array1 [])
  | [[x]] => Ok (Array0 x)
  | [row] => Ok (Array1 row)
  | (row :: rest) as table =>
      if forallb (fun l => Nat.eqb (length l) (length row)) rest then
        if Nat.eqb (length row) 1 then Ok (Array1 (concat table))
        else Ok (Array2 table)
      else Raise ValueError
  end.

(** [data[:,1:4]] (line 53): two indices need a two-dimensional array. *)
Definition columns_1_4 (data : ndarray) : result (list (list F)) :=
  match data with
  | Array2 rows => Ok (map (fun row => firstn 3 (skipn 1 row)) rows)
  | _ => Raise IndexError
  end.

(** [a.reshape(size)] (line 55), row-major; the sizes must agree. *)
Definition reshape (a : list (list F)) (size : nat) : result (list F) :=
  let flat := concat a in
  if Nat.eqb (length flat) size then Ok flat else Raise ValueError.

(** [row[0:k] = src[0:k]] (line 58) *)
Definition assign_prefix (row src : list F) (k : nat) : list F :=
  firstn k src ++ skipn k row.

(** [np.zeros(n)] *)
Definition zeros (n : nat) : list F := repeat (of_int 0) n.

(** The body of the loop of lines 50-59 for one file. *)
Definition load_file (n : nat) (lines : list (list F)) : result (list F) :=
  (data <- loadtxt lines ;;
   selected_data <- columns_1_4 data ;;
   selected_data <- reshape selected_data (length selected_data * 3) ;;
   let k := Nat.min n (length selected_data) in
   Ok (assign_prefix (zeros n) selected_data k))%result.

(** Lines 46-59: [real_values], one row per file. *)
Definition load_real_values (num_qubits : nat) (files : list (list (list F)))
  : result (list (list F)) :=
  let n := 2 ^ num_qubits in
  rmap (load_file n) files.
End Loader.

(** ** Normalization (lines 75-82) *)

Section Normalizer.
Context {F : Type} {SF : Scalar F}.

(** [values ** 2] *)
Definition square (values : list F) : list F :=
  map (fun x => fmul x x) values.

(** [np.sum(values)], adding from left to right.  (NumPy adds long arrays
    in blocks; in exact arithmetic the order is immaterial, and so it is
    for the sums of zeros and of NaN met in binary64 below.) *)
Definition np_sum (values : list F) : F :=
  fold_left fadd values (of_int 0).

(** The Euclidean norm, which the script calls [mean]. *)
Definition euclidean_norm (values : list F) : F :=
  fsqrt (np_sum (square values)).

Definition normalize (values : list F) : list F :=
  let mean := fsqrt (np_sum (square values)) in
  map (fun x => fdiv x mean) values.

(** The literal [0.0000001]. *)
Definition tolerance : F := fdiv (of_int 1) (of_int 10000000).

(** [np.abs(1-np.sum(v ** 2))<=0.0000001], the condition asserted at
    lines 81, 238 and 270. *)
Definition unit_norm (v : list F) : bool :=
  fle (fabs (fsub (of_int 1) (np_sum (square v)))) tolerance.

Definition assert_ (b : bool) : result unit :=
  if b then Ok tt else Raise AssertionError.

(** One iteration of the loop of lines 78-81. *)
Definition normalize_row (row : list F) : result (list F) :=
  (let row' := normalize row in
   _ <- assert_ (unit_norm row') ;;
   Ok row')%result.

(** Lines 78-81 over all rows of [real_values]. *)
Definition normalize_real_values (real_values : list (list F))
  : result (list (list F)) :=
  rmap normalize_row real_values.
End Normalizer.

(** ** Devices and quantum nodes

    The simulators are PennyLane's, not the script's: a device is taken
    here by its interface.  Running a quantum node records the operations
    its body queues, then has the device execute the queue: the device is
    reset, the operations are applied in order, and the expectation values
    are read off the final state.  The script creates its devices without
    shots (lines 92 and 140), so an expectation value is computed from the
    state, not sampled. *)

Section Devices.
Context {F : Type} {SF : Scalar F}.

Inductive operation : Type :=
| QubitStateVector (state : list F) (wires : list nat)
| Rot (phi theta omega : F) (wire : nat)
| CNOT (control target : nat)
| Displacement (a phi : F) (wire : nat)
| Rotation (phi : F) (wire : nat).

Inductive observable : Type :=
| PauliZ (wire : nat)
| MeanPhoton (wire : nat).

Record Device : Type := {
  dstate : Type;
  reset : dstate;
  apply : operation -> dstate -> result dstate;
  expval : observable -> dstate -> result F
}.

Fixpoint apply_queue (d : Device) (queue : list operation) (s : dstate d)
  : result (dstate d) :=
  match queue with
  | [] => Ok s
  | op :: queue' => (s' <- apply d op s ;; apply_queue d queue' s')%result
  end.

(** [Device.execute]: the state the device was left in by earlier runs
    is dropped by the reset. *)
Definition execute (d : Device) (queue : list operation)
    (expectation : list observable) (_ : dstate d)
  : result (list F * dstate d) :=
  (s <- apply_queue d queue (reset d) ;;
   ev <- rmap (fun e => expval d e s) expectation ;;
   Ok (ev, s))%result.
End Devices.

Arguments operation F : clear implicits.
Arguments Device F : clear implicits.

(** ** The script *)

Section Script.
Context {F : Type} {SF : Scalar F}.

(** [dev], [dev_gaussian] and NumPy's global random state. *)
Variables dev dev_gaussian : Device F.
Variable rng : Type.

Record world : Type := {
  dev_state : dstate dev;
  dev_gaussian_state : dstate dev_gaussian;
  np_random : rng
}.

(** A computation of the script: it reads and updates the world, or
    raises; nothing in the script catches an exception. *)
Definition M (A : Type) : Type := world -> result (A * world).

Definition ret {A} (a : A) : M A := fun w => Ok (a, w).

Definition bind {A B} (m : M A) (k : A -> M B) : M B :=
  fun w => match m w with
           | Ok (a, w') => k a w'
           | Raise e => Raise e
           end.

Definition lift {A} (r : result A) : M A :=
  fun w => match r with
           | Ok a => Ok (a, w)
           | Raise e => Raise e
           end.

Declare Scope script_scope.
Delimit Scope script_scope with script.
Notation "x <- m ;; k" := (bind m (fun x => k))
  (at level 61, m at next level, right associativity) : script_scope.

(** [assert(b)] *)
Definition assert (b : bool) : M unit := lift (assert_ b).

(** The value a computation returns, the world left aside. *)
Definition value {A} (r : result (A * world)) : result A :=
  match r with
  | Ok (a, _) => Ok a
  | Raise e => Raise e
  end.

Variable num_qubits : nat.

(** *** Elementary circuit layer (lines 102-106) *)
Definition layer (num_wires : nat) (W : list (list F))
  : result (list (operation F)) :=
  (rots <- rmap (fun i =>
                   Wi <- np_index W (Z.of_nat i) ;;
                   phi <- np_index Wi 0 ;;
                   theta <- np_index Wi 1 ;;
                   omega <- np_index Wi 2 ;;
                   Ok (Rot phi theta omega i))
                (range num_wires) ;;
   Ok (rots ++
       map (fun i => CNOT i ((i + 1) mod num_wires)) (range num_wires))
  )%result.

(** *** Quantum node for real data (lines 116-124)

    The node is modelled as its first call runs it: the circuit is built
    from the arguments of the call.  PennyLane keeps the circuit that the
    first call of a node builds and feeds the arguments of later calls
    into it by position; that cache is not modelled, so a later call is
    covered when its arguments have the shape of the first call's. *)
Definition real_disc_circuit_queue (real_values : list F)
    (weights : list (list (list F))) : result (list (operation F)) :=
  (layers <- rmap (layer num_qubits) weights ;;
   Ok (QubitStateVector real_values (range num_qubits) :: concat layers)
  )%result.

Definition real_disc_circuit (real_values : list F)
    (weights : list (list (list F))) : M F :=
  fun w =>
    (queue <- real_disc_circuit_queue real_values weights ;;
     run <- execute dev queue [PauliZ 0] (dev_state w) ;;
     r <- np_index (fst run) 0 ;;
     Ok (r, {| dev_state := snd run;
               dev_gaussian_state := dev_gaussian_state w;
               np_random := np_random w |}))%result.

(** *** Photonic quantum node (lines 152-160)

    Modelled as its first call runs it, like the node above. *)
Definition mean_photon_gaussian_queue (n : nat) (weights : list (list F))
  : result (list (operation F)) :=
  (gates <- rmap (fun i =>
                    wi <- np_index weights (Z.of_nat i) ;;
                    mag_alpha <- np_index wi 0 ;;
                    phase_alpha <- np_index wi 1 ;;
                    phi <- np_index wi 2 ;;
                    Ok [Displacement mag_alpha phase_alpha i;
                        Rotation phi i])
                 (range n) ;;
   Ok (concat gates))%result.

Definition mean_photon_gaussian (weights : list (list F)) : M (list F) :=
  fun w =>
    (let n := 2 ^ num_qubits in
     queue <- mean_photon_gaussian_queue n weights ;;
     run <- execute dev_gaussian queue
              (map MeanPhoton (range (2 ^ num_qubits)))
              (dev_gaussian_state w) ;;
     Ok (fst run, {| dev_state := dev_state w;
                     dev_gaussian_state := snd run;
                     np_random := np_random w |}))%result.

(** *** Cost (lines 184-241) *)

Definition prob_real_true (real_values : list F)
    (disc_weights : list (list (list F))) : M F :=
  (r <- real_disc_circuit real_values disc_weights ;;
   _ <- assert (fle (of_int (-1)) r && fle r (of_int 1)) ;;
   let p := fdiv (fadd r (of_int 1)) (of_int 2) in
   _ <- assert (fle (of_int 0) p && fle r (of_int 1)) ;;
   ret p)%script.

Definition prob_fake_true (fake_values : list F)
    (disc_weights : list (list (list F))) : M F :=
  (r <- real_disc_circuit fake_values disc_weights ;;
   _ <- assert (fle (of_int (-1)) r && fle r (of_int 1)) ;;
   let p := fdiv (fadd r (of_int 1)) (of_int 2) in
   _ <- assert (fle (of_int 0) p && fle r (of_int 1)) ;;
   ret p)%script.

Definition disc_cost (fake_values real_values : list F)
    (disc_weights : list (list (list F))) : M F :=
  (pf <- prob_fake_true fake_values disc_weights ;;
   pr <- prob_real_true real_values disc_weights ;;
   let cost := fsub pf pr in
   ret cost)%script.

Definition gen_cost (params : list (list F))
    (disc_weights : list (list (list F))) : M F :=
  (fake_values <- mean_photon_gaussian params ;;
   let norm_fake_values := normalize fake_values in
   _ <- assert (unit_norm norm_fake_values) ;;
   p <- prob_fake_true norm_fake_values disc_weights ;;
   let cost := fneg p in
   ret cost)%script.

(** *** Discriminator optimization (lines 292-301)

    [opt.step] and [np.random.randint] are the libraries'. *)
Variable opt_step :
  (list (list (list F)) -> M F) -> list (list (list F)) ->
  M (list (list (list F))).
Variable randint : Z -> Z -> M Z.

(** The loop of lines 297-301, for [steps] iterations left to run. *)
Fixpoint disc_loop (steps : nat) (fake_values : list F)
    (real_values : list (list F)) (disc_weights : list (list (list F)))
  : M (list (list (list F))) :=
  match steps with
  | O => ret disc_weights
  | S steps' =>
      (j <- randint 0 (Z.of_nat (length real_values)) ;;
       row <- lift (np_index real_values j) ;;
       disc_weights' <- opt_step (fun v => disc_cost fake_values row v)
                          disc_weights ;;
       cost <- disc_cost fake_values row disc_weights' ;;
       disc_loop steps' fake_values real_values disc_weights')%script
  end.

(** [for i in range(steps)]: a negative [steps] is an empty range. *)
Definition disc_optimization (steps : Z) (fake_values : list F)
    (real_values : list (list F)) (disc_weights : list (list (list F)))
  : M (list (list (list F))) :=
  disc_loop (Z.to_nat steps) fake_values real_values disc_weights.

(** The generator's loop (lines 326-329) has the same shape. *)
Variable gen_opt_step :
  (list (list F) -> M F) -> list (list F) -> M (list (list F)).

Fixpoint gen_loop (steps : nat) (gen_weights : list (list F))
    (disc_weights : list (list (list F))) : M (list (list F)) :=
  match steps with
  | O => ret gen_weights
  | S steps' =>
      (gen_weights' <- gen_opt_step (fun v => gen_cost v disc_weights)
                         gen_weights ;;
       cost <- gen_cost gen_weights' disc_weights ;;
       gen_loop steps' gen_weights' disc_weights)%script
  end.

(** The probabilities reported once the discriminator is optimized
    (lines 307-311). *)
Definition disc_report (fake_values : list F) (real_values : list (list F))
    (disc_weights : list (list (list F))) : M (F * F) :=
  (row <- lift (np_index real_values 0) ;;
   p_R <- prob_real_true row disc_weights ;;
   _ <- assert (fle (of_int 0) p_R && fle p_R (of_int 1)) ;;
   p_F <- prob_fake_true fake_values disc_weights ;;
   ret (p_R, p_F))%script.
End Script.


(** ** Two small devices

    Concrete devices on which the script can be run.  Each supports only
    what it can simulate with the scalar operations at hand and raises
    [DeviceError] for the rest, as a PennyLane device does for an
    operation outside its supported set. *)

Section SmallDevices.
Context {F : Type} {SF : Scalar F}.

(** A qubit device for state preparation and measurement of wire 0.  Its
    state is the amplitude vector; wire 0 is the most significant bit of
    the basis index, so [PauliZ(0)] weighs the first half of the squared
    amplitudes by +1 and the second half by -1. *)
Definition prepare_measure_apply (wires : nat) (op : operation F)
    (s : list F) : result (list F) :=
  match op with
  | QubitStateVector state _ =>
      if Nat.eqb (length state) (2 ^ wires) then Ok state
      else Raise ValueError
  | _ => Raise DeviceError
  end.

Definition prepare_measure_expval (e : observable) (s : list F) : result F :=
  match e with
  | PauliZ 0 =>
      let half := Nat.div2 (length s) in
      Ok (fsub (np_sum (square (firstn half s)))
               (np_sum (square (skipn half s))))
  | _ => Raise DeviceError
  end.

Definition prepare_measure_device (wires : nat) : Device F := {|
  dstate := list F;
  reset := of_int 1 :: repeat (of_int 0) (2 ^ wires - 1);
  apply := prepare_measure_apply wires;
  expval := prepare_measure_expval
|}.

(** A photonic device that follows the magnitude of the displacement of
    each mode: [None] is the vacuum.  A displacement of the vacuum by
    [a] leaves [a * a] photons on average; a rotation keeps that number. *)
Definition displace (a : F) (wire : nat) (s : list (option F))
  : result (list (option F)) :=
  match nth_error s wire with
  | Some None => Ok (firstn wire s ++ Some a :: skipn (S wire) s)
  | Some (Some _) => Raise DeviceError
  | None => Raise ValueError
  end.

Definition vacuum_displacement_apply (op : operation F)
    (s : list (option F)) : result (list (option F)) :=
  match op with
  | Displacement a _ wire => displace a wire s
  | Rotation _ wire =>
      match nth_error s wire with
      | Some _ => Ok s
      | None => Raise ValueError
      end
  | _ => Raise DeviceError
  end.

Definition vacuum_displacement_expval (e : observable) (s : list (option F))
  : result F :=
  match e with
  | MeanPhoton wire =>
      match nth_error s wire with
      | Some (Some a) => Ok (fmul a a)
      | Some None => Ok (of_int 0)
      | None => Raise ValueError
      end
  | _ => Raise DeviceError
  end.

Definition vacuum_displacement_device (wires : nat) : Device F := {|
  dstate := list (option F);
  reset := repeat None wires;
  apply := vacuum_displacement_apply;
  expval := vacuum_displacement_expval
|}.

(** The script's devices for [num_qubits] qubits, freshly created, with a
    random state that is never consulted. *)
Definition small_world (num_qubits : nat)
  : world (prepare_measure_device num_qubits)
          (vacuum_displacement_device (2 ^ num_qubits)) unit :=
  {| dev_state := reset (prepare_measure_device num_qubits);
     dev_gaussian_state := reset (vacuum_displacement_device (2 ^ num_qubits));
     np_random := tt |}.
End SmallDevices.

(** * Properties *)

Unset Implicit Arguments.

(** ** The error monads *)

Lemma rmap_length {A B} (f : A -> result B) (xs : list A) (ys : list B) :
  rmap f xs = Ok ys -> length ys = length xs.
Proof.
  revert ys; induction xs as [|x xs IH]; simpl; intros ys H.
  - now inversion H.
  - destruct (f x) as [y|e]; simpl in H; [|discriminate].
    destruct (rmap f xs) as [ys'|e]; simpl in H; [|discriminate].
    inversion H; subst; simpl; f_equal; now apply IH.
Qed.

Lemma rmap_Forall {A B} (f : A -> result B) (P : B -> Prop) (xs : list A)
    (ys : list B) :
  (forall x y, f x = Ok y -> P y) ->
  rmap f xs = Ok ys -> Forall P ys.
Proof.
  intros Hf; revert ys; induction xs as [|x xs IH]; simpl; intros ys H.
  - inversion H; constructor.
  - destruct (f x) as [y|e] eqn:E; simpl in H; [|discriminate].
    destruct (rmap f xs) as [ys'|e]; simpl in H; [|discriminate].
    inversion H; subst; constructor; [exact (Hf x y E)|now apply IH].
Qed.

(** ** Exact arithmetic: sums of squares and the norm *)

Section RealArithmetic.
Local Open Scope R_scope.

Lemma Rleb_true (a b : R) : a <= b -> Rleb a b = true.
Proof. intros H; unfold Rleb; destruct (Rle_dec a b); [reflexivity|contradiction]. Qed.

Lemma Rleb_false (a b : R) : b < a -> Rleb a b = false.
Proof. intros H; unfold Rleb; destruct (Rle_dec a b); [lra|reflexivity]. Qed.

Lemma fold_left_Rplus_acc (l : list R) (a : R) :
  fold_left Rplus l a = a + fold_left Rplus l 0.
Proof.
  revert a; induction l as [|x l IH]; intros a; simpl.
  - lra.
  - rewrite (IH (a + x)), (IH (0 + x)); lra.
Qed.

Lemma np_sum_nil : np_sum (@nil R) = 0.
Proof. reflexivity. Qed.

Lemma np_sum_cons (x : R) (l : list R) : np_sum (x :: l) = x + np_sum l.
Proof.
  unfold np_sum; simpl.
  rewrite fold_left_Rplus_acc; lra.
Qed.

Lemma sum_squares_nonneg (v : list R) : 0 <= np_sum (square v).
Proof.
  induction v as [|x v IH]; simpl.
  - rewrite np_sum_nil; lra.
  - rewrite np_sum_cons; simpl. nra.
Qed.

Lemma sum_squares_scaled (v : list R) (c : R) :
  np_sum (square (map (fun x => x / c) v)) = np_sum (square v) * (/ c * / c).
Proof.
  induction v as [|x v IH]; simpl.
  - rewrite np_sum_nil; lra.
  - rewrite !np_sum_cons, IH; simpl. unfold Rdiv; ring.
Qed.

Lemma norm_nonzero_sum_positive (v : list R) :
  euclidean_norm v <> 0 -> 0 < np_sum (square v).
Proof.
  unfold euclidean_norm; simpl; intros H.
  destruct (Rle_lt_or_eq_dec _ _ (sum_squares_nonneg v)) as [Hlt|Heq]; [exact Hlt|].
  exfalso; apply H; rewrite <- Heq; apply sqrt_0.
Qed.

(** The heart of the normalizer: the squares of a normalized vector add
    up to one. *)
Lemma normalize_sum_squares (v : list R) :
  euclidean_norm v <> 0 -> np_sum (square (normalize v)) = 1.
Proof.
  intros H; pose proof (norm_nonzero_sum_positive v H) as Hpos.
  unfold normalize; simpl.
  rewrite sum_squares_scaled.
  rewrite <- Rinv_mult, sqrt_sqrt by lra.
  field; lra.
Qed.

Lemma tolerance_positive : 0 < @tolerance R _.
Proof. unfold tolerance; simpl; lra. Qed.

Lemma normalize_passes_check (v : list R) :
  euclidean_norm v <> 0 -> unit_norm (normalize v) = true.
Proof.
  intros H; unfold unit_norm; simpl.
  apply Rleb_true.
  rewrite (normalize_sum_squares v H).
  replace (1 - 1) with 0 by lra; rewrite Rabs_R0.
  left; apply tolerance_positive.
Qed.

End RealArithmetic.

(** In any arithmetic, a row that the loop of lines 78-81 keeps has passed
    the check. *)
Lemma normalize_row_checked {F : Type} {SF : Scalar F} (row row' : list F) :
  normalize_row row = Ok row' -> row' = normalize row /\ unit_norm row' = true.
Proof.
  unfold normalize_row; intros H.
  destruct (unit_norm (normalize row)) eqn:E; simpl in H; [|discriminate].
  inversion H; subst; auto.
Qed.

(** After the loop of lines 78-81 every row of [real_values] has unit
    norm within the tolerance, as the check computes it. *)
Lemma normalize_real_values_checked {F : Type} {SF : Scalar F}
    (real_values rows : list (list F)) :
  normalize_real_values real_values = Ok rows ->
  length rows = length real_values /\
  Forall (fun row => unit_norm row = true) rows.
Proof.
  intros H; split; [exact (rmap_length _ _ _ H)|].
  apply (rmap_Forall normalize_row _ real_values rows); [|exact H].
  intros row row' Hrow; now apply (normalize_row_checked row row').
Qed.


(** ** The normalizer in binary64 *)

Module Binary64Normalizer.
Import Binary64.

Lemma square_zeros (signs : list bool) :
  square (map S754_zero signs) = map (fun _ => pzero) signs.
Proof.
  unfold square; rewrite map_map; apply map_ext.
  intros []; reflexivity.
Qed.

Lemma sum_pzeros {A} (l : list A) :
  fold_left fadd (map (fun _ => pzero) l) pzero = pzero.
Proof. induction l as [|x l IH]; simpl; [reflexivity|exact IH]. Qed.

Lemma norm_zeros (signs : list bool) :
  euclidean_norm (map S754_zero signs) = pzero.
Proof.
  unfold euclidean_norm, np_sum; rewrite square_zeros.
  change (of_int 0) with pzero; rewrite sum_pzeros; reflexivity.
Qed.

Lemma sum_from_nan (l : list float) : fold_left fadd l nan = nan.
Proof. induction l as [|x l IH]; simpl; [reflexivity|exact IH]. Qed.

Lemma sum_squares_nans {A} (x : A) (l : list A) :
  np_sum (square (map (fun _ => nan) (x :: l))) = nan.
Proof. unfold np_sum, square; simpl; apply sum_from_nan. Qed.

Lemma normalize_zeros (signs : list bool) :
  normalize (map S754_zero signs) = map (fun _ => nan) signs.
Proof.
  unfold normalize.
  change (fsqrt (np_sum (square (map S754_zero signs))))
    with (euclidean_norm (map S754_zero signs)).
  rewrite norm_zeros, map_map; apply map_ext.
  intros []; reflexivity.
Qed.

Lemma nans_fail_check {A} (l : list A) :
  unit_norm (map (fun _ : A => nan) l) = false.
Proof.
  destruct l as [|x l].
  - vm_compute; reflexivity.
  - unfold unit_norm; rewrite sum_squares_nans; reflexivity.
Qed.

(** C3, as the script has it.  [normalize] divides zero by zero: on a
    vector of zeros, of either sign and of any length, it returns a vector
    of NaN and raises nothing.  What stops the script is the assertion
    that follows the call (line 81; likewise lines 238 and 270): the check
    fails on that vector and [AssertionError] is raised. *)
Theorem normalize_zero_vector (signs : list bool) :
  normalize (map S754_zero signs) = map (fun _ => nan) signs /\
  normalize_row (map S754_zero signs) = Raise AssertionError.
Proof.
  split; [apply normalize_zeros|].
  unfold normalize_row.
  rewrite normalize_zeros, nans_fail_check; reflexivity.
Qed.

(** C3, as stated, fails on [normalize]: fed four zeros it returns four
    NaN. *)
Lemma normalize_zero_vector_returns_nan :
  normalize (zeros 4) = [nan; nan; nan; nan] /\
  forallb is_nan (normalize (zeros 4)) = true.
Proof. split; vm_compute; reflexivity. Qed.

(** When the squares overflow the check fails as well: the norm is
    infinite and every entry becomes zero. *)
Example normalize_overflow :
  let big := fmul (of_Z (10 ^ 150)) (of_Z (10 ^ 50)) in
  normalize [big] = [pzero] /\ normalize_row [big] = Raise AssertionError.
Proof. split; vm_compute; reflexivity. Qed.

Example normalize_3_4 :
  normalize_row [of_Z 3; of_Z 4] =
  Ok [fdiv (of_Z 3) (of_Z 5); fdiv (of_Z 4) (of_Z 5)].
Proof. vm_compute; reflexivity. Qed.


(** *** Division by one *)












End Binary64Normalizer.

(** ** The discriminator node and the device state *)

Section NodeProperties.
Context {F : Type} {SF : Scalar F}.
Variables dev dev_gaussian : Device F.
Variable rng : Type.
Variable num_qubits : nat.

Local Abbreviation world := (world dev dev_gaussian rng).

(** The expectation value of the discriminator circuit, computed from the
    arguments alone. *)
Lemma real_disc_circuit_value (real_values : list F)
    (weights : list (list (list F))) (w : world) :
  value (real_disc_circuit num_qubits real_values weights w) =
  (queue <- real_disc_circuit_queue num_qubits real_values weights ;;
   s <- apply_queue dev queue (reset dev) ;;
   r <- expval dev (PauliZ 0) s ;;
   Ok r)%result.
Proof.
  unfold real_disc_circuit, execute.
  destruct (real_disc_circuit_queue num_qubits real_values weights)
    as [queue|e]; simpl; [|reflexivity].
  destruct (apply_queue dev queue (reset dev)) as [s|e]; simpl; [|reflexivity].
  destruct (expval dev (PauliZ 0) s) as [r|e]; reflexivity.
Qed.

Lemma real_disc_circuit_any_world (real_values : list F)
    (weights : list (list (list F))) (w1 w2 : world) :
  value (real_disc_circuit num_qubits real_values weights w1) =
  value (real_disc_circuit num_qubits real_values weights w2).
Proof. now rewrite !real_disc_circuit_value. Qed.

Lemma value_Ok {A} (m : result (A * world)) (a : A) (w : world) :
  m = Ok (a, w) -> value m = Ok a.
Proof. now intros ->. Qed.

Lemma value_Raise {A} (m : result (A * world)) (e : exn) :
  value m = Raise e -> m = Raise e.
Proof. destruct m as [[a w]|e']; simpl; congruence. Qed.

Lemma value_inv {A} (m : result (A * world)) (a : A) :
  value m = Ok a -> exists w, m = Ok (a, w).
Proof.
  destruct m as [[a' w]|e]; simpl; intros H; inversion H; subst; eauto.
Qed.

(** Both probabilities are the expectation value put through lines
    187-191. *)
Lemma prob_real_true_value (values : list F)
    (disc_weights : list (list (list F))) (w : world) :
  value (prob_real_true num_qubits values disc_weights w) =
  (r <- value (real_disc_circuit num_qubits values disc_weights w) ;;
   _ <- assert_ (fle (of_int (-1)) r && fle r (of_int 1)) ;;
   _ <- assert_ (fle (of_int 0) (fdiv (fadd r (of_int 1)) (of_int 2))
                 && fle r (of_int 1)) ;;
   Ok (fdiv (fadd r (of_int 1)) (of_int 2)))%result.
Proof.
  unfold prob_real_true, bind, assert, lift, ret.
  destruct (real_disc_circuit num_qubits values disc_weights w)
    as [[r w']|e]; simpl; [|reflexivity].
  destruct (fle (of_int (-1)) r && fle r (of_int 1)); simpl; [|reflexivity].
  destruct (fle (of_int 0) (fdiv (fadd r (of_int 1)) (of_int 2))
            && fle r (of_int 1)); reflexivity.
Qed.

Lemma prob_fake_true_value (values : list F)
    (disc_weights : list (list (list F))) (w : world) :
  value (prob_fake_true num_qubits values disc_weights w) =
  (r <- value (real_disc_circuit num_qubits values disc_weights w) ;;
   _ <- assert_ (fle (of_int (-1)) r && fle r (of_int 1)) ;;
   _ <- assert_ (fle (of_int 0) (fdiv (fadd r (of_int 1)) (of_int 2))
                 && fle r (of_int 1)) ;;
   Ok (fdiv (fadd r (of_int 1)) (of_int 2)))%result.
Proof. exact (prob_real_true_value values disc_weights w). Qed.

Lemma prob_real_true_any_world (values : list F)
    (disc_weights : list (list (list F))) (w1 w2 : world) :
  value (prob_real_true num_qubits values disc_weights w1) =
  value (prob_real_true num_qubits values disc_weights w2).
Proof.
  rewrite !prob_real_true_value.
  now rewrite (real_disc_circuit_any_world values disc_weights w1 w2).
Qed.

(** In any arithmetic, a probability that [prob_real_true] returns comes
    from an expectation value that passed the assertion of line 187, by
    the affine map, and passed the assertion of line 190. *)
Lemma prob_real_true_checked (values : list F)
    (disc_weights : list (list (list F))) (w : world) (p : F) :
  value (prob_real_true num_qubits values disc_weights w) = Ok p ->
  exists r,
    value (real_disc_circuit num_qubits values disc_weights w) = Ok r /\
    fle (of_int (-1)) r = true /\ fle r (of_int 1) = true /\
    p = fdiv (fadd r (of_int 1)) (of_int 2) /\
    fle (of_int 0) p = true.
Proof.
  rewrite prob_real_true_value.
  destruct (value (real_disc_circuit num_qubits values disc_weights w))
    as [r|e]; simpl; [|discriminate].
  destruct (fle (of_int (-1)) r) eqn:E1; simpl; [|discriminate].
  destruct (fle r (of_int 1)) eqn:E2; simpl; [|discriminate].
  destruct (fle (of_int 0) (fdiv (fadd r (of_int 1)) (of_int 2))) eqn:E3;
    simpl; [|discriminate].
  intros H; inversion H; subst; exists r; auto.
Qed.

(** C10. [prob_real_true] and [prob_fake_true] are one function: on every
    vector, every weight tensor and every world they return the same
    probability, raise the same exception and leave the same world. *)
Theorem prob_real_fake_same (values : list F)
    (disc_weights : list (list (list F))) (w : world) :
  prob_real_true num_qubits values disc_weights w =
  prob_fake_true num_qubits values disc_weights w.
Proof. reflexivity. Qed.

(** C4. The discriminator's cost is the probability of fake true minus the
    probability of real true, each as the function returns it when called
    on its own: the first call leaves nothing behind that the second could
    see.  If [prob_fake_true] raises, so does [disc_cost]; otherwise, if
    [prob_real_true] raises, so does [disc_cost]. *)
Theorem disc_cost_difference (fake_values real_values : list F)
    (disc_weights : list (list (list F))) (w : world) :
  value (disc_cost num_qubits fake_values real_values disc_weights w) =
  (pf <- value (prob_fake_true num_qubits fake_values disc_weights w) ;;
   pr <- value (prob_real_true num_qubits real_values disc_weights w) ;;
   Ok (fsub pf pr))%result.
Proof.
  unfold disc_cost, bind at 1.
  destruct (prob_fake_true num_qubits fake_values disc_weights w)
    as [[pf w1]|e]; simpl; [|reflexivity].
  rewrite (prob_real_true_any_world real_values disc_weights w w1).
  unfold bind, ret.
  destruct (prob_real_true num_qubits real_values disc_weights w1)
    as [[pr w2]|e]; reflexivity.
Qed.

(** *** The optimization loop *)

Variable opt_step :
  (list (list (list F)) -> M dev dev_gaussian rng F) ->
  list (list (list F)) -> M dev dev_gaussian rng (list (list (list F))).
Variable randint : Z -> Z -> M dev dev_gaussian rng Z.

(** A range that is empty runs the body of the loop not once. *)
Lemma disc_optimization_empty_range (steps : Z) (fake_values : list F)
    (real_values : list (list F)) (disc_weights : list (list (list F)))
    (w : world) :
  (steps <= 0)%Z ->
  disc_optimization num_qubits opt_step randint steps fake_values real_values
    disc_weights w = Ok (disc_weights, w).
Proof.
  intros H; unfold disc_optimization.
  replace (Z.to_nat steps) with O by lia; reflexivity.
Qed.

(** C8. Run for 0 steps, the discriminator optimization returns
    [disc_weights] as it was given, whatever the optimizer, the random
    generator, the data and the world; the world is left as it was. *)
Theorem disc_optimization_zero_steps (fake_values : list F)
    (real_values : list (list F)) (disc_weights : list (list (list F)))
    (w : world) :
  disc_optimization num_qubits opt_step randint 0 fake_values real_values
    disc_weights w = Ok (disc_weights, w).
Proof. reflexivity. Qed.
End NodeProperties.

(** ** The cost functions in exact arithmetic *)

Section CostProperties.
Local Open Scope R_scope.
Variables dev dev_gaussian : Device R.
Variable rng : Type.
Variable num_qubits : nat.

Local Abbreviation world := (world dev dev_gaussian rng).

Lemma prob_real_true_affine (values : list R)
    (disc_weights : list (list (list R))) (w w' : world) (r : R) :
  real_disc_circuit num_qubits values disc_weights w = Ok (r, w') ->
  -1 <= r <= 1 ->
  prob_real_true num_qubits values disc_weights w = Ok ((r + 1) / 2, w').
Proof.
  intros Hr [Hlo Hhi].
  unfold prob_real_true, bind, assert, lift, ret; rewrite Hr; simpl.
  rewrite (Rleb_true _ _ Hlo), (Rleb_true _ _ Hhi); simpl.
  rewrite Rleb_true by lra; reflexivity.
Qed.

(** C1. Whenever the discriminator circuit returns an expectation value
    [r] with [-1 <= r <= 1], [prob_real_true] and [prob_fake_true] both
    return [(r + 1) / 2], which lies between 0 and 1; at [r = -1], [0] and
    [1] the probability is [0], [1/2] and [1]. *)
Theorem prob_true_affine (values : list R)
    (disc_weights : list (list (list R))) (w w' : world) (r : R) :
  real_disc_circuit num_qubits values disc_weights w = Ok (r, w') ->
  -1 <= r <= 1 ->
  prob_real_true num_qubits values disc_weights w = Ok ((r + 1) / 2, w') /\
  prob_fake_true num_qubits values disc_weights w = Ok ((r + 1) / 2, w') /\
  0 <= (r + 1) / 2 <= 1 /\
  (r = -1 -> prob_real_true num_qubits values disc_weights w = Ok (0, w')) /\
  (r = 0 -> prob_real_true num_qubits values disc_weights w = Ok (1 / 2, w')) /\
  (r = 1 -> prob_real_true num_qubits values disc_weights w = Ok (1, w')).
Proof.
  intros Hr Hb.
  pose proof (prob_real_true_affine values disc_weights w w' r Hr Hb) as Hp.
  repeat split; try exact Hp; try lra.
  - intros ->; rewrite Hp; do 2 f_equal; lra.
  - intros ->; rewrite Hp; do 2 f_equal; lra.
  - intros ->; rewrite Hp; do 2 f_equal; lra.
Qed.

End CostProperties.

(** ** The generator's cost *)

Section GeneratorCost.
Context {F : Type} {SF : Scalar F}.
Variables dev dev_gaussian : Device F.
Variable rng : Type.
Variable num_qubits : nat.

Local Abbreviation world := (world dev dev_gaussian rng).

End GeneratorCost.

(** ** Runs on the small devices *)

Section RealRuns.
Local Open Scope R_scope.

Local Abbreviation small_world_R :=
  (world (prepare_measure_device (F:=R) 2)
         (vacuum_displacement_device (F:=R) (2 ^ 2)) unit).

Lemma prob_true_affine_witness :
  let w : small_world_R := small_world 2 in
  let r := np_sum (square [1; 0]) - np_sum (square [0; 0]) in
  let w' : small_world_R :=
    @Build_world R (prepare_measure_device 2)
      (vacuum_displacement_device (2 ^ 2)) unit
      [1; 0; 0; 0] (dev_gaussian_state w) tt in
  real_disc_circuit 2 [1; 0; 0; 0] [] w = Ok (r, w') /\
  -1 <= r <= 1 /\
  prob_real_true 2 [1; 0; 0; 0] [] w = Ok ((r + 1) / 2, w') /\
  prob_fake_true 2 [1; 0; 0; 0] [] w = Ok ((r + 1) / 2, w') /\
  0 <= (r + 1) / 2 <= 1.
Proof.
  intros w r w'.
  assert (Hr : real_disc_circuit 2 [1; 0; 0; 0] [] w = Ok (r, w'))
    by reflexivity.
  assert (Hb : -1 <= r <= 1) by (unfold r, np_sum; simpl; lra).
  destruct (prob_true_affine _ _ unit 2 [1; 0; 0; 0] [] w w' r Hr Hb)
    as (H1 & H2 & H3 & _).
  exact (conj Hr (conj Hb (conj H1 (conj H2 H3)))).
Defined.

End RealRuns.

(** ** The data loader *)

Section LoaderProperties.
Context {F : Type} {SF : Scalar F}.

Lemma skipn_repeat (x : F) (n k : nat) :
  skipn k (repeat x n) = repeat x (n - k).
Proof.
  revert k; induction n as [|n IH]; intros [|k]; simpl; auto.
Qed.

Lemma firstn_min_length (l : list F) (n : nat) :
  firstn (Nat.min n (length l)) l = firstn n l.
Proof.
  destruct (Nat.le_ge_cases n (length l)) as [H|H].
  - now rewrite Nat.min_l.
  - rewrite Nat.min_r by exact H.
    now rewrite firstn_all, firstn_all2.
Qed.

(** Line 58 on a fresh row of zeros: the first [n] values, then zeros. *)
Lemma assign_prefix_zeros (n : nat) (src : list F) :
  assign_prefix (zeros n) src (Nat.min n (length src)) =
  firstn n src ++ repeat (of_int 0) (n - length src).
Proof.
  unfold assign_prefix, zeros.
  rewrite firstn_min_length, skipn_repeat.
  do 2 f_equal; lia.
Qed.

Lemma nonempty_lines_kept (c : nat) (lines : list (list F)) :
  4 <= c ->
  Forall (fun l => length l = c) lines ->
  filter (fun l => negb (is_empty l)) lines = lines.
Proof.
  intros Hc; induction 1 as [|l lines Hl _ IH]; simpl; [reflexivity|].
  destruct l; [simpl in Hl; lia|]; simpl; now rewrite IH.
Qed.

Lemma same_width (c : nat) (lines : list (list F)) :
  Forall (fun l => length l = c) lines ->
  forallb (fun l => Nat.eqb (length l) c) lines = true.
Proof.
  induction 1 as [|l lines Hl _ IH]; simpl; [reflexivity|].
  now rewrite Hl, Nat.eqb_refl, IH.
Qed.

(** With four fields on a line, columns 1 to 3 are all but the first. *)
Lemma columns_are_tails (lines : list (list F)) :
  Forall (fun l => length l = 4) lines ->
  map (fun row => firstn 3 (skipn 1 row)) lines = map (@tl F) lines.
Proof.
  induction 1 as [|l lines Hl _ IH]; [reflexivity|].
  cbn [map]; rewrite IH; f_equal.
  destruct l as [|t [|x [|y [|z [|]]]]]; try discriminate; reflexivity.
Qed.

Lemma columns_length (c : nat) (lines : list (list F)) :
  4 <= c ->
  Forall (fun l => length l = c) lines ->
  length (concat (map (fun row => firstn 3 (skipn 1 row)) lines)) =
  length lines * 3.
Proof.
  intros Hc; induction 1 as [|l lines Hl _ IH]; [reflexivity|].
  cbn [map concat length]; rewrite length_app, IH.
  rewrite length_firstn, length_skipn; lia.
Qed.

(** A file of two lines or more, of four fields or more, is read as a
    table. *)
Lemma loadtxt_table (c : nat) (lines : list (list F)) :
  2 <= length lines ->
  4 <= c ->
  Forall (fun l => length l = c) lines ->
  loadtxt lines = Ok (Array2 lines).
Proof.
  intros Hlen Hc Hw; unfold loadtxt.
  rewrite (nonempty_lines_kept c lines Hc Hw).
  destruct lines as [|r1 [|r2 rest]]; simpl in Hlen; try lia.
  inversion Hw as [|? ? H1 Hrest]; subst.
  destruct r1 as [|t [|x r1]]; simpl in Hc; try lia.
  rewrite (same_width _ (r2 :: rest) Hrest).
  destruct r1; [simpl in Hc; lia|reflexivity].
Qed.

Lemma load_file_table (n c : nat) (lines : list (list F)) :
  2 <= length lines ->
  4 <= c ->
  Forall (fun l => length l = c) lines ->
  let flat := concat (map (fun row => firstn 3 (skipn 1 row)) lines) in
  load_file n lines =
  Ok (firstn n flat ++ repeat (of_int 0) (n - length flat)).
Proof.
  intros Hlen Hc Hw flat; unfold load_file.
  rewrite (loadtxt_table c lines Hlen Hc Hw).
  unfold rbind at 1, columns_1_4.
  unfold rbind at 1, reshape.
  rewrite length_map, (columns_length c lines Hc Hw), Nat.eqb_refl.
  unfold rbind.
  now rewrite assign_prefix_zeros.
Qed.

(** A file of at least two lines, all of the same number of fields,
    four or more, is loaded as the contract says: fields 1 to
    3 of every line are kept (with four fields on a line, all but the
    timestamp) and laid out line after line, three to a line; the row
    stored has length [n], agrees with that sequence on its first
    [min n available] places and is zero from there on. *)
Theorem load_file_truncates_or_pads (n c : nat) (lines : list (list F)) :
  2 <= length lines ->
  4 <= c ->
  Forall (fun l => length l = c) lines ->
  let flat := concat (map (fun row => firstn 3 (skipn 1 row)) lines) in
  let k := Nat.min n (length flat) in
  length flat = length lines * 3 /\
  (c = 4 -> flat = concat (map (@tl F) lines)) /\
  exists row,
    load_file n lines = Ok row /\
    length row = n /\
    firstn k row = firstn k flat /\
    skipn k row = repeat (of_int 0) (n - k).
Proof.
  intros Hlen Hc Hw flat k.
  split; [exact (columns_length c lines Hc Hw)|].
  split; [intros ->; unfold flat; now rewrite (columns_are_tails lines Hw)|].
  exists (firstn n flat ++ repeat (of_int 0) (n - length flat)).
  assert (Hk : length (firstn n flat) = k) by apply length_firstn.
  split; [exact (load_file_table n c lines Hlen Hc Hw)|].
  split; [rewrite length_app, repeat_length; lia|].
  split.
  - rewrite <- Hk at 1.
    rewrite firstn_app, firstn_all, Nat.sub_diag; simpl.
    rewrite app_nil_r; unfold k; now rewrite firstn_min_length.
  - rewrite <- Hk at 1.
    rewrite skipn_app, skipn_all, Nat.sub_diag; simpl.
    f_equal; lia.
Qed.

(** A file of one line is not read as a table: [np.loadtxt] returns the
    line as a one-dimensional array, and [data[:,1:4]] raises [IndexError]
    on it, whatever the four numbers and whatever [n]. *)
Lemma load_file_one_line (n : nat) (t x y z : F) :
  load_file n [[t; x; y; z]] = Raise IndexError.
Proof. reflexivity. Qed.

(** Whatever the file, a row that is stored has length [n], and
    [real_values] has one row for each file. *)
Lemma load_file_length (n : nat) (lines : list (list F)) (row : list F) :
  load_file n lines = Ok row -> length row = n.
Proof.
  unfold load_file; intros H.
  destruct (loadtxt lines) as [data|e]; simpl in H; [|discriminate].
  destruct (columns_1_4 data) as [sel|e]; simpl in H; [|discriminate].
  destruct (reshape sel (length sel * 3)) as [flat|e]; simpl in H;
    [|discriminate].
  inversion H; subst.
  rewrite assign_prefix_zeros, length_app, length_firstn, repeat_length; lia.
Qed.

Lemma load_real_values_shape (num_qubits : nat)
    (files : list (list (list F))) (real_values : list (list F)) :
  load_real_values num_qubits files = Ok real_values ->
  length real_values = length files /\
  Forall (fun row => length row = 2 ^ num_qubits) real_values.
Proof.
  unfold load_real_values; intros H; split; [exact (rmap_length _ _ _ H)|].
  apply (rmap_Forall (load_file (2 ^ num_qubits)) _ files real_values);
    [|exact H].
  intros lines row; apply load_file_length.
Qed.

(** An empty file fares no better. *)
Lemma load_file_empty (n : nat) : load_file n (@nil (list F)) = Raise IndexError.
Proof. reflexivity. Qed.
End LoaderProperties.

(** ** Runs in binary64 *)

Module Binary64Runs.
Import Binary64.

Local Abbreviation zero := (of_Z 0).
Local Abbreviation one := (of_Z 1).
Local Abbreviation half := (fdiv (of_Z 1) (of_Z 2)).

(** The affine map at the ends and in the middle of the interval: a state
    on which wire 0 reads 1 gives [r = -1] and [p = 0], a state balanced
    between the two readings gives [r = 0] and [p = 0.5], and a state on
    which wire 0 reads 0 gives [r = 1] and [p = 1]. *)
Example prob_at_minus_one :
  value (real_disc_circuit 2 [zero; zero; zero; one] [] (small_world 2))
    = Ok (of_Z (-1)) /\
  value (prob_real_true 2 [zero; zero; zero; one] [] (small_world 2))
    = Ok zero.
Proof. split; vm_compute; reflexivity. Qed.

Example prob_at_zero :
  value (real_disc_circuit 2 [zero; one; one; zero] [] (small_world 2))
    = Ok zero /\
  value (prob_real_true 2 [zero; one; one; zero] [] (small_world 2))
    = Ok half.
Proof. split; vm_compute; reflexivity. Qed.

Example prob_at_one :
  value (real_disc_circuit 2 [one; zero; zero; zero] [] (small_world 2))
    = Ok one /\
  value (prob_real_true 2 [one; zero; zero; zero] [] (small_world 2))
    = Ok one.
Proof. split; vm_compute; reflexivity. Qed.

(** An expectation value that is not a number is stopped by line 187. *)
Example prob_of_nan :
  value (prob_real_true 2 [nan; zero; zero; zero] [] (small_world 2))
    = Raise AssertionError.
Proof. vm_compute; reflexivity. Qed.

(** The generator at displacement 1 on every mode: four photon numbers
    of 1, normalized to 1/2 each, on which wire 0 is balanced. *)
Example gen_cost_run :
  value (gen_cost 2 (repeat [one; zero; zero] 4) [] (small_world 2))
    = Ok (fneg half).
Proof. vm_compute; reflexivity. Qed.

(** The loader on two lines, with [n = 4] and with [n = 8]. *)
Example load_two_lines :
  load_file 4 [[of_Z 10; of_Z 1; of_Z 2; of_Z 3];
               [of_Z 20; of_Z 4; of_Z 5; of_Z 6]]
    = Ok [of_Z 1; of_Z 2; of_Z 3; of_Z 4] /\
  load_file 8 [[of_Z 10; of_Z 1; of_Z 2; of_Z 3];
               [of_Z 20; of_Z 4; of_Z 5; of_Z 6]]
    = Ok [of_Z 1; of_Z 2; of_Z 3; of_Z 4; of_Z 5; of_Z 6; zero; zero].
Proof. split; vm_compute; reflexivity. Qed.

(** Of lines of five fields the fifth is dropped along with the first:
    with [n = 4] the row stored ends in 5, the second field of the second
    line. *)
Example load_file_five_columns :
  let lines := [[of_Z 10; of_Z 1; of_Z 2; of_Z 3; of_Z 4];
                [of_Z 20; of_Z 5; of_Z 6; of_Z 7; of_Z 8]] in
  load_file 4 lines = Ok [of_Z 1; of_Z 2; of_Z 3; of_Z 5] /\
  firstn 4 (concat (map (@tl float) lines))
    = [of_Z 1; of_Z 2; of_Z 3; of_Z 4] /\
  load_file 4 lines <> Ok (firstn 4 (concat (map (@tl float) lines))).
Proof.
  split; [vm_compute; reflexivity|].
  split; [vm_compute; reflexivity|].
  vm_compute; discriminate.
Qed.

Lemma load_file_truncates_or_pads_witness :
  let lines := [[of_Z 10; of_Z 1; of_Z 2; of_Z 3];
                [of_Z 20; of_Z 4; of_Z 5; of_Z 6]] in
  let flat := concat (map (fun row => firstn 3 (skipn 1 row)) lines) in
  let k := Nat.min 8 (length flat) in
  2 <= length lines /\
  Forall (fun l => length l = 4) lines /\
  length flat = length lines * 3 /\
  (4 = 4 -> flat = concat (map (@tl float) lines)) /\
  exists row,
    load_file 8 lines = Ok row /\
    length row = 8 /\
    firstn k row = firstn k flat /\
    skipn k row = repeat (of_int 0) (8 - k).
Proof.
  intros lines flat k.
  assert (Hlen : 2 <= length lines) by (simpl; lia).
  assert (Hw : Forall (fun l => length l = 4) lines)
    by (repeat constructor).
  exact (conj Hlen (conj Hw
           (load_file_truncates_or_pads 8 4 lines Hlen (le_n 4) Hw))).
Defined.

(** C7 fails on a file in the documented format that has one line,
    [0.0 1.0 2.0 3.0], with [n = 4] as in the script.  The contract asks
    for the row [1.0, 2.0, 3.0, 0.0], three velocities and a zero, and
    line 58 is written to fill short rows with zeros; but [np.loadtxt]
    returns the line as a one-dimensional array, [data[:,1:4]] raises
    [IndexError] at line 53, and no row is stored. *)
Theorem load_one_line :
  load_file 4 [[of_Z 0; of_Z 1; of_Z 2; of_Z 3]] = Raise IndexError.
Proof. vm_compute; reflexivity. Qed.

(** Lines of three fields cannot be reshaped to three values a line. *)
Example load_three_columns :
  load_file 4 [[of_Z 10; of_Z 1; of_Z 2]; [of_Z 20; of_Z 4; of_Z 5]]
    = Raise ValueError.
Proof. vm_compute; reflexivity. Qed.


End Binary64Runs.

(** * Further properties *)

(** ** Loops that may raise, and indexing *)

Lemma rmap_Ok_inv {A B} (f : A -> result B) (xs : list A) (ys : list B) :
  rmap f xs = Ok ys -> Forall2 (fun x y => f x = Ok y) xs ys.
Proof.
  revert ys; induction xs as [|x xs IH]; simpl; intros ys H.
  - inversion H; constructor.
  - destruct (f x) as [y|e] eqn:E; simpl in H; [|discriminate].
    destruct (rmap f xs) as [ys'|e]; simpl in H; [|discriminate].
    inversion H; subst; constructor; [exact E|now apply IH].
Qed.

Lemma rmap_Ok_intro {A B} (f : A -> result B) (xs : list A) (ys : list B) :
  Forall2 (fun x y => f x = Ok y) xs ys -> rmap f xs = Ok ys.
Proof.
  induction 1 as [|x y xs ys Hxy _ IH]; simpl; [reflexivity|].
  now rewrite Hxy, IH.
Qed.

Lemma rmap_Raise_inv {A B} (f : A -> result B) (xs : list A) (e : exn) :
  rmap f xs = Raise e -> exists x, In x xs /\ f x = Raise e.
Proof.
  induction xs as [|x xs IH]; simpl; intros H; [discriminate|].
  destruct (f x) as [y|e'] eqn:E; simpl in H.
  - destruct (rmap f xs) as [ys|e'']; simpl in H; [discriminate|].
    inversion H; subst.
    destruct (IH eq_refl) as (x' & Hin & Hx'); eauto.
  - inversion H; subst; eauto.
Qed.

Lemma rmap_map_pure {A B} (g : A -> B) (xs : list A) :
  rmap (fun x => Ok (g x)) xs = Ok (map g xs).
Proof.
  induction xs as [|x xs IH]; simpl; [reflexivity|now rewrite IH].
Qed.

(** An index taken from a [range] is looked up as it stands. *)
Lemma np_index_nat {A} (a : list A) (i : nat) :
  np_index a (Z.of_nat i) =
  match nth_error a i with
  | Some x => Ok x
  | None => Raise IndexError
  end.
Proof.
  unfold np_index.
  replace (Z.of_nat i <? 0)%Z with false by (symmetry; apply Z.ltb_ge; lia).
  replace (0 <=? Z.of_nat i)%Z with true by (symmetry; apply Z.leb_le; lia).
  rewrite Nat2Z.id; simpl.
  destruct (nth_error a i) as [x|] eqn:E.
  - assert (i < length a) by (apply nth_error_Some; congruence).
    replace (Z.of_nat i <? Z.of_nat (length a))%Z with true
      by (symmetry; apply Z.ltb_lt; lia).
    reflexivity.
  - now destruct (Z.of_nat i <? Z.of_nat (length a))%Z.
Qed.

Lemma np_index_raises {A} (a : list A) (j : Z) (e : exn) :
  np_index a j = Raise e -> e = IndexError.
Proof.
  unfold np_index.
  destruct ((0 <=? _) && _)%Z; [|congruence].
  destruct (nth_error a _); congruence.
Qed.

Lemma np_index_nil {A} (j : Z) : np_index (@nil A) j = Raise IndexError.
Proof.
  unfold np_index; simpl.
  destruct (j <? 0)%Z eqn:E.
  - rewrite Z.add_0_r.
    replace (0 <=? j)%Z with false by (symmetry; apply Z.leb_gt, Z.ltb_lt, E).
    reflexivity.
  - replace (j <? 0)%Z with false; rewrite Bool.andb_false_r; reflexivity.
Qed.

(** ** The data loader on files that are not tables of four columns *)

Section LoaderEdges.
Context {F : Type} {SF : Scalar F}.

Lemma lines_kept (c : nat) (lines : list (list F)) :
  1 <= c ->
  Forall (fun l => length l = c) lines ->
  filter (fun l => negb (is_empty l)) lines = lines.
Proof.
  intros Hc; induction 1 as [|l lines Hl _ IH]; simpl; [reflexivity|].
  destruct l; [simpl in Hl; lia|]; simpl; now rewrite IH.
Qed.

Lemma loadtxt_wide_table (c : nat) (lines : list (list F)) :
  2 <= length lines ->
  2 <= c ->
  Forall (fun l => length l = c) lines ->
  loadtxt lines = Ok (Array2 lines).
Proof.
  intros Hlen Hc Hw; unfold loadtxt.
  rewrite (lines_kept c lines) by (auto; lia).
  destruct lines as [|r1 [|r2 rest]]; simpl in Hlen; try lia.
  inversion Hw as [|? ? H1 Hrest]; subst.
  destruct r1 as [|t [|x r1]]; simpl in Hc; try lia.
  now rewrite (same_width _ (r2 :: rest) Hrest).
Qed.

Lemma loadtxt_one_column (lines : list (list F)) :
  Forall (fun l => length l = 1) lines ->
  exists data, loadtxt lines = Ok data /\
               match data with Array2 _ => False | _ => True end.
Proof.
  intros Hw; unfold loadtxt.
  rewrite (lines_kept 1 lines) by auto.
  destruct lines as [|r1 rest]; [eexists; split; [reflexivity|exact I]|].
  inversion Hw as [|? ? H1 Hrest]; subst.
  destruct r1 as [|x [|y r1]]; try discriminate.
  destruct rest as [|r2 rest]; [eexists; split; [reflexivity|exact I]|].
  change (length [x]) with 1.
  rewrite (same_width 1 (r2 :: rest) Hrest); simpl.
  eexists; split; [reflexivity|exact I].
Qed.

Lemma loadtxt_short (lines : list (list F)) :
  length lines <= 1 ->
  exists data, loadtxt lines = Ok data /\
               match data with Array2 _ => False | _ => True end.
Proof.
  intros Hlen; unfold loadtxt.
  destruct lines as [|r1 [|r2 rest]]; simpl in Hlen; try lia.
  - eexists; split; [reflexivity|exact I].
  - destruct r1 as [|x [|y r1]]; simpl;
      eexists; (split; [reflexivity|exact I]).
Qed.

(** A file of fewer than two lines, or of one number a line, is not read
    as a table: [np.loadtxt] returns a flat array (or a scalar) and the
    slice [data[:,1:4]] raises [IndexError], whatever [n]. *)
Theorem load_file_not_a_table (n : nat) (lines : list (list F)) :
  length lines <= 1 \/ Forall (fun l => length l = 1) lines ->
  load_file n lines = Raise IndexError.
Proof.
  intros H.
  assert (Hd : exists data, loadtxt lines = Ok data /\
                 match data with Array2 _ => False | _ => True end).
  { destruct H as [H|H];
      [exact (loadtxt_short lines H)|exact (loadtxt_one_column lines H)]. }
  destruct Hd as (data & Hload & Hflat).
  unfold load_file; rewrite Hload; simpl.
  destruct data; [reflexivity|reflexivity|contradiction].
Qed.

Lemma narrow_columns_length (c : nat) (lines : list (list F)) :
  Forall (fun l => length l = c) lines ->
  length (concat (map (fun row => firstn 3 (skipn 1 row)) lines)) =
  length lines * Nat.min 3 (c - 1).
Proof.
  induction 1 as [|l lines Hl _ IH]; [reflexivity|].
  cbn [map concat length]; rewrite length_app, IH.
  rewrite length_firstn, length_skipn; lia.
Qed.

(** A table of two or three columns (a timestamp and fewer than three
    velocities on a line) cannot be laid out three values a line: the
    [reshape] of line 55 raises [ValueError]. *)
Theorem load_file_too_narrow (n c : nat) (lines : list (list F)) :
  2 <= length lines ->
  2 <= c < 4 ->
  Forall (fun l => length l = c) lines ->
  load_file n lines = Raise ValueError.
Proof.
  intros Hlen Hc Hw; unfold load_file.
  rewrite (loadtxt_wide_table c lines Hlen (proj1 Hc) Hw).
  unfold rbind at 1, columns_1_4.
  unfold rbind at 1, reshape.
  rewrite length_map, (narrow_columns_length c lines Hw).
  replace (Nat.eqb _ _) with false; [reflexivity|].
  symmetry; apply Nat.eqb_neq; nia.
Qed.

End LoaderEdges.

(** ** The circuits that the quantum nodes queue *)

Section CircuitShape.
Context {F : Type}.

Lemma Forall2_nth_error {A B} (P : A -> B -> Prop) (xs : list A)
    (ys : list B) (i : nat) (x : A) :
  Forall2 P xs ys -> nth_error xs i = Some x ->
  exists y, nth_error ys i = Some y /\ P x y.
Proof.
  intros H; revert i; induction H as [|x' y' xs ys Hxy _ IH]; intros i Hi.
  - destruct i; discriminate.
  - destruct i as [|i]; simpl in *.
    + inversion Hi; subst; eauto.
    + now apply IH.
Qed.

Lemma nth_error_range (n i : nat) : i < n -> nth_error (range n) i = Some i.
Proof.
  intros H; unfold range.
  rewrite nth_error_nth' with (d := 0) by (rewrite length_seq; exact H).
  now rewrite seq_nth.
Qed.

(** The three angles of row [i] of a matrix of weights, as lines 104 and
    155-156 read them. *)
Lemma angles_inv (W : list (list F)) (i : nat) {A} (k : F -> F -> F -> A)
    (y : A) :
  (Wi <- np_index W (Z.of_nat i) ;;
   a <- np_index Wi 0 ;;
   b <- np_index Wi 1 ;;
   c <- np_index Wi 2 ;;
   Ok (k a b c))%result = Ok y ->
  exists row a b c,
    nth_error W i = Some row /\
    nth_error row 0 = Some a /\ nth_error row 1 = Some b /\
    nth_error row 2 = Some c /\ y = k a b c.
Proof.
  rewrite np_index_nat.
  destruct (nth_error W i) as [row|]; simpl; [|discriminate].
  change 0%Z with (Z.of_nat 0); change 1%Z with (Z.of_nat 1);
    change 2%Z with (Z.of_nat 2).
  rewrite !np_index_nat.
  destruct row as [|a [|b [|c row]]]; simpl; try discriminate.
  intros H; inversion H; subst; exists (a :: b :: c :: row), a, b, c; auto.
Qed.

Lemma angles_raise (W : list (list F)) (i : nat) {A} (k : F -> F -> F -> A)
    (e : exn) :
  (Wi <- np_index W (Z.of_nat i) ;;
   a <- np_index Wi 0 ;;
   b <- np_index Wi 1 ;;
   c <- np_index Wi 2 ;;
   Ok (k a b c))%result = Raise e ->
  e = IndexError.
Proof.
  destruct (np_index W (Z.of_nat i)) as [row|e1] eqn:E1; simpl;
    [|intros H; inversion H; subst; exact (np_index_raises _ _ _ E1)].
  destruct (np_index row 0) as [a|e2] eqn:E2; simpl;
    [|intros H; inversion H; subst; exact (np_index_raises _ _ _ E2)].
  destruct (np_index row 1) as [b|e3] eqn:E3; simpl;
    [|intros H; inversion H; subst; exact (np_index_raises _ _ _ E3)].
  destruct (np_index row 2) as [c|e4] eqn:E4; simpl;
    [discriminate|intros H; inversion H; subst;
                  exact (np_index_raises _ _ _ E4)].
Qed.

Lemma angles_missing (W : list (list F)) (i : nat) {A}
    (k : F -> F -> F -> A) :
  (forall row, nth_error W i = Some row -> length row < 3) ->
  (Wi <- np_index W (Z.of_nat i) ;;
   a <- np_index Wi 0 ;;
   b <- np_index Wi 1 ;;
   c <- np_index Wi 2 ;;
   Ok (k a b c))%result = Raise IndexError.
Proof.
  intros Hrow.
  match goal with |- ?m = _ => destruct m as [y|e] eqn:E end.
  - destruct (angles_inv W i k y E) as (row & a & b & c & HW & _ & _ & Hc & _).
    specialize (Hrow row HW).
    assert (2 < length row) by (apply nth_error_Some; congruence); lia.
  - now rewrite (angles_raise W i k e E).
Qed.

(** The ring of line 106 sends wire [i] to wire [i + 1], the last one
    back to wire 0. *)
Lemma ring_targets (m : nat) :
  map (fun i => (i + 1) mod S m) (range (S m)) = seq 1 m ++ [0].
Proof.
  unfold range; rewrite seq_S, map_app.
  cbn [map Nat.add].
  replace ((m + 1) mod S m) with 0.
  - f_equal; rewrite <- seq_shift; apply map_ext_in.
    intros i Hi; apply in_seq in Hi.
    rewrite Nat.mod_small by lia; lia.
  - replace (m + 1) with (S m) by lia; now rewrite Nat.Div0.mod_same.
Qed.

Lemma layer_inv (n : nat) (W : list (list F)) (ops : list (operation F)) :
  layer n W = Ok ops ->
  exists rots,
    ops = rots ++ map (fun i => CNOT i ((i + 1) mod n)) (range n) /\
    Forall2 (fun i op =>
               exists row a b c,
                 nth_error W i = Some row /\
                 nth_error row 0 = Some a /\ nth_error row 1 = Some b /\
                 nth_error row 2 = Some c /\ op = Rot a b c i)
            (range n) rots.
Proof.
  unfold layer; intros H.
  match type of H with (rbind ?m _) = _ => destruct m as [rots|e] eqn:E end;
    simpl in H; [|discriminate].
  inversion H; subst; exists rots; split; [reflexivity|].
  apply rmap_Ok_inv in E.
  eapply Forall2_impl; [|exact E].
  intros i op Hop; simpl in Hop.
  exact (angles_inv W i (fun a b c => Rot a b c i) op Hop).
Qed.

(** What a layer queues: one rotation for each wire, in order, with the
    three angles of the wire's row of [W], then the ring of CNOTs.  A
    layer over [n] wires has [2 * n] operations. *)
Theorem layer_operations (n : nat) (W : list (list F))
    (ops : list (operation F)) :
  layer n W = Ok ops ->
  length ops = 2 * n /\
  skipn n ops = map (fun i => CNOT i ((i + 1) mod n)) (range n) /\
  forall i, i < n ->
    exists row a b c,
      nth_error W i = Some row /\ firstn 3 row = [a; b; c] /\
      nth_error ops i = Some (Rot a b c i).
Proof.
  intros H; destruct (layer_inv n W ops H) as (rots & -> & Hrots).
  assert (Hlen : length rots = n).
  { rewrite <- (Forall2_length Hrots); apply length_seq. }
  split; [rewrite length_app, length_map, Hlen; unfold range;
          rewrite length_seq; lia|].
  split; [rewrite skipn_app, skipn_all2, Hlen, Nat.sub_diag by lia;
          reflexivity|].
  intros i Hi.
  destruct (Forall2_nth_error _ _ _ i i Hrots (nth_error_range n i Hi))
    as (op & Hop & row & a & b & c & HW & Ha & Hb & Hc & ->).
  exists row, a, b, c; split; [exact HW|]; split.
  - destruct row as [|a' [|b' [|c' row]]]; try discriminate.
    simpl in *; congruence.
  - rewrite nth_error_app1 by (rewrite Hlen; exact Hi); exact Hop.
Qed.

Lemma layer_raise_inv (n : nat) (W : list (list F)) (e : exn) :
  layer n W = Raise e -> e = IndexError.
Proof.
  unfold layer; intros H.
  match type of H with (rbind ?m _) = _ => destruct m as [rots|e'] eqn:E end;
    simpl in H; [discriminate|].
  inversion H; subst.
  destruct (rmap_Raise_inv _ _ _ E) as (i & _ & Hi).
  exact (angles_raise W i (fun a b c => Rot a b c i) e Hi).
Qed.

(** A matrix of weights that lacks the row of one of the wires, or has
    fewer than three angles in it, makes the layer raise [IndexError]. *)
Theorem layer_index_error (n : nat) (W : list (list F)) (i : nat) :
  i < n ->
  (forall row, nth_error W i = Some row -> length row < 3) ->
  layer n W = Raise IndexError.
Proof.
  intros Hi Hrow.
  destruct (layer n W) as [ops|e] eqn:E;
    [|now rewrite (layer_raise_inv n W e E)].
  destruct (layer_inv n W ops E) as (rots & _ & Hrots).
  destruct (Forall2_nth_error _ _ _ i i Hrots (nth_error_range n i Hi))
    as (op & _ & row & a & b & c & HW & _ & _ & Hc & _).
  specialize (Hrow row HW).
  assert (2 < length row) by (apply nth_error_Some; congruence); lia.
Qed.

(** On two wires or more no CNOT of the ring has its control for target,
    and every wire is the target of exactly one of them. *)
Theorem layer_ring (n : nat) (W : list (list F)) (ops : list (operation F)) :
  layer n W = Ok ops ->
  2 <= n ->
  Forall (fun op => match op with
                    | CNOT c t => c < n /\ t < n /\ c <> t
                    | _ => False
                    end) (skipn n ops) /\
  Permutation (map (fun i => (i + 1) mod n) (range n)) (range n).
Proof.
  intros H Hn; destruct (layer_inv n W ops H) as (rots & -> & Hrots).
  assert (Hlen : length rots = n).
  { rewrite <- (Forall2_length Hrots); apply length_seq. }
  split.
  - rewrite skipn_app, skipn_all2, Hlen, Nat.sub_diag by lia; simpl.
    apply Forall_forall; intros op Hop.
    apply in_map_iff in Hop; destruct Hop as (i & <- & Hi).
    apply in_seq in Hi.
    assert (Hm : (i + 1) mod n < n) by (apply Nat.mod_upper_bound; lia).
    repeat split; try lia.
    destruct (Nat.eq_dec (i + 1) n) as [E|E].
    + rewrite E, Nat.Div0.mod_same; lia.
    + rewrite Nat.mod_small by lia; lia.
  - destruct n as [|m]; [lia|].
    rewrite ring_targets; unfold range; cbn [seq].
    apply Permutation_sym, Permutation_cons_append.
Qed.
Lemma rmap_raises {A B} (f : A -> result B) (xs : list A) (x : A)
    (e0 : exn) :
  In x xs -> f x = Raise e0 ->
  (forall y e, f y = Raise e -> e = e0) ->
  rmap f xs = Raise e0.
Proof.
  intros Hin Hx Hall.
  destruct (rmap f xs) as [ys|e] eqn:E.
  - apply rmap_Ok_inv in E.
    destruct (In_nth_error _ _ Hin) as (i & Hi).
    destruct (Forall2_nth_error _ _ _ i x E Hi) as (y & _ & Hy); congruence.
  - destruct (rmap_Raise_inv _ _ _ E) as (y & _ & Hy).
    now rewrite (Hall y e Hy).
Qed.

Lemma concat_length_uniform {A} (k : nat) (ls : list (list A)) :
  Forall (fun l => length l = k) ls -> length (concat ls) = length ls * k.
Proof.
  induction 1 as [|l ls Hl _ IH]; simpl; [reflexivity|].
  rewrite length_app, IH, Hl; lia.
Qed.

Lemma layer_gates (n : nat) (W : list (list F)) (ops : list (operation F)) :
  layer n W = Ok ops ->
  length ops = 2 * n /\
  Forall (fun op => match op with
                    | Rot _ _ _ wire => wire < n
                    | CNOT c t => c < n /\ t < n
                    | _ => False
                    end) ops.
Proof.
  intros H; destruct (layer_inv n W ops H) as (rots & -> & Hrots).
  assert (Hlen : length rots = n).
  { rewrite <- (Forall2_length Hrots); apply length_seq. }
  split; [rewrite length_app, length_map, Hlen; unfold range;
          rewrite length_seq; lia|].
  apply Forall_app; split.
  - apply Forall_forall; intros op Hop.
    destruct (In_nth_error _ _ Hop) as (i & Hi).
    assert (Hin : i < n)
      by (rewrite <- Hlen; apply nth_error_Some; congruence).
    destruct (Forall2_nth_error _ _ _ i i Hrots (nth_error_range n i Hin))
      as (op' & Hop' & _ & a & b & c & _ & _ & _ & _ & ->).
    rewrite Hi in Hop'; inversion Hop'; subst; exact Hin.
  - apply Forall_forall; intros op Hop.
    apply in_map_iff in Hop; destruct Hop as (i & <- & Hi).
    apply in_seq in Hi; split; [lia|].
    apply Nat.mod_upper_bound; lia.
Qed.

(** What the discriminator node queues: the preparation of the state
    from the amplitude vector, then the layers, [2 * num_qubits]
    operations each, all of them rotations and CNOTs on wires of the
    device. *)
Theorem real_disc_circuit_queue_shape (num_qubits : nat)
    (real_values : list F) (weights : list (list (list F)))
    (queue : list (operation F)) :
  real_disc_circuit_queue num_qubits real_values weights = Ok queue ->
  hd_error queue = Some (QubitStateVector real_values (range num_qubits)) /\
  length queue = 1 + length weights * (2 * num_qubits) /\
  Forall (fun op => match op with
                    | Rot _ _ _ wire => wire < num_qubits
                    | CNOT c t => c < num_qubits /\ t < num_qubits
                    | _ => False
                    end) (tl queue).
Proof.
  unfold real_disc_circuit_queue; intros H.
  destruct (rmap (layer num_qubits) weights) as [layers|e] eqn:E;
    simpl in H; [|discriminate].
  inversion H; subst; clear H.
  pose proof (rmap_length _ _ _ E) as Hlen.
  assert (Hall : Forall (fun ops =>
                   length ops = 2 * num_qubits /\
                   Forall (fun op => match op with
                                     | Rot _ _ _ wire => wire < num_qubits
                                     | CNOT c t =>
                                         c < num_qubits /\ t < num_qubits
                                     | _ => False
                                     end) ops) layers).
  { apply (rmap_Forall (layer num_qubits) _ weights layers); [|exact E].
    intros W ops; apply layer_gates. }
  split; [reflexivity|]; split; simpl.
  - rewrite (concat_length_uniform (2 * num_qubits)), Hlen; [reflexivity|].
    eapply Forall_impl; [|exact Hall]; now intros ops [? _].
  - apply Forall_concat.
    eapply Forall_impl; [|exact Hall]; now intros ops [_ ?].
Qed.

Lemma layer_short_rows (n : nat) (W : list (list F)) :
  length W < n -> layer n W = Raise IndexError.
Proof.
  intros Hshort.
  destruct (layer n W) as [ops|e] eqn:E;
    [|now rewrite (layer_raise_inv n W e E)].
  destruct (layer_inv n W ops E) as (rots & _ & Hrots).
  destruct (Forall2_nth_error _ _ _ (length W) (length W) Hrots
              (nth_error_range n (length W) Hshort))
    as (op & _ & row & _ & _ & _ & HW & _).
  assert (length W < length W) by (apply nth_error_Some; congruence); lia.
Qed.

(** Building the discriminator's circuit from a weight tensor one of
    whose layers has fewer rows than there are qubits raises
    [IndexError]: the layer cannot be queued.  (This is the body of the
    node, as its first call runs it.) *)
Theorem real_disc_circuit_queue_short_layer (num_qubits : nat)
    (real_values : list F) (weights : list (list (list F)))
    (W : list (list F)) :
  In W weights ->
  length W < num_qubits ->
  real_disc_circuit_queue num_qubits real_values weights = Raise IndexError.
Proof.
  intros Hin Hshort.
  pose proof (layer_short_rows num_qubits W Hshort) as HW.
  unfold real_disc_circuit_queue.
  rewrite (rmap_raises (layer num_qubits) weights W IndexError Hin HW
             (layer_raise_inv num_qubits)).
  reflexivity.
Qed.

(** ** The photonic node *)

Lemma concat_pairs_nth {A} (gs : list (list A)) (i : nat) (x y : A) :
  Forall (fun g => length g = 2) gs ->
  nth_error gs i = Some [x; y] ->
  nth_error (concat gs) (2 * i) = Some x /\
  nth_error (concat gs) (2 * i + 1) = Some y.
Proof.
  intros H; revert i; induction H as [|g gs Hg _ IH]; intros i Hi.
  - destruct i; discriminate.
  - destruct i as [|i]; simpl in Hi.
    + inversion Hi; subst; simpl; auto.
    + destruct g as [|a [|b [|]]]; try discriminate.
      destruct (IH i Hi) as [H0 H1].
      replace (2 * S i) with (S (S (2 * i))) by lia.
      replace (S (S (2 * i)) + 1) with (S (S (2 * i + 1))) by lia.
      simpl concat; split; [exact H0|exact H1].
Qed.

Lemma gaussian_queue_inv (n : nat) (weights : list (list F))
    (queue : list (operation F)) :
  mean_photon_gaussian_queue n weights = Ok queue ->
  exists gates,
    queue = concat gates /\
    Forall2 (fun i g =>
               exists row a b c,
                 nth_error weights i = Some row /\
                 nth_error row 0 = Some a /\ nth_error row 1 = Some b /\
                 nth_error row 2 = Some c /\
                 g = [Displacement a b i; Rotation c i])
            (range n) gates.
Proof.
  unfold mean_photon_gaussian_queue; intros H.
  match type of H with (rbind ?m _) = _ => destruct m as [gates|e] eqn:E end;
    simpl in H; [|discriminate].
  inversion H; subst; exists gates; split; [reflexivity|].
  apply rmap_Ok_inv in E.
  eapply Forall2_impl; [|exact E].
  intros i g Hg; simpl in Hg.
  exact (angles_inv weights i
           (fun a b c => [Displacement a b i; Rotation c i]) g Hg).
Qed.

Lemma gaussian_queue_raise_inv (n : nat) (weights : list (list F))
    (e : exn) :
  mean_photon_gaussian_queue n weights = Raise e -> e = IndexError.
Proof.
  unfold mean_photon_gaussian_queue; intros H.
  match type of H with (rbind ?m _) = _ => destruct m as [gates|e'] eqn:E end;
    simpl in H; [discriminate|].
  inversion H; subst.
  destruct (rmap_Raise_inv _ _ _ E) as (i & _ & Hi).
  exact (angles_raise weights i
           (fun a b c => [Displacement a b i; Rotation c i]) e Hi).
Qed.

(** What the generator node queues on [n] modes: for mode [i], in order,
    a displacement by the first two entries of row [i] of the weights and
    a rotation by the third, [2 * n] operations in all. *)
Theorem mean_photon_gaussian_queue_shape (n : nat)
    (weights : list (list F)) (queue : list (operation F)) :
  mean_photon_gaussian_queue n weights = Ok queue ->
  length queue = 2 * n /\
  forall i, i < n ->
    exists row a b c,
      nth_error weights i = Some row /\ firstn 3 row = [a; b; c] /\
      nth_error queue (2 * i) = Some (Displacement a b i) /\
      nth_error queue (2 * i + 1) = Some (Rotation c i).
Proof.
  intros H; destruct (gaussian_queue_inv n weights queue H)
    as (gates & -> & Hg).
  assert (Hlen : length gates = n).
  { rewrite <- (Forall2_length Hg); apply length_seq. }
  assert (Hpairs : Forall (fun g => length g = 2) gates).
  { apply Forall_forall; intros g Hin.
    destruct (In_nth_error _ _ Hin) as (i & Hi).
    assert (Hlt : i < n)
      by (rewrite <- Hlen; apply nth_error_Some; congruence).
    destruct (Forall2_nth_error _ _ _ i i Hg (nth_error_range n i Hlt))
      as (g' & Hg' & _ & a & b & c & _ & _ & _ & _ & ->).
    rewrite Hi in Hg'; now inversion Hg'. }
  split; [rewrite (concat_length_uniform 2 gates Hpairs); lia|].
  intros i Hi.
  destruct (Forall2_nth_error _ _ _ i i Hg (nth_error_range n i Hi))
    as (g & Hgi & row & a & b & c & HW & Ha & Hb & Hc & ->).
  exists row, a, b, c; split; [exact HW|]; split.
  - destruct row as [|a' [|b' [|c' row]]]; try discriminate.
    simpl in *; congruence.
  - exact (concat_pairs_nth gates i _ _ Hpairs Hgi).
Qed.

(** The generator node returns one mean photon number for each of the
    [2 ^ num_qubits] modes, and leaves the discriminator's device and the
    random state as they were. *)
Theorem mean_photon_gaussian_output {dev dev_gaussian : Device F}
    {rng : Type} (num_qubits : nat) (weights : list (list F))
    (w w' : world dev dev_gaussian rng) (fake_values : list F) :
  mean_photon_gaussian num_qubits weights w = Ok (fake_values, w') ->
  length fake_values = 2 ^ num_qubits /\
  dev_state w' = dev_state w /\ np_random w' = np_random w.
Proof.
  unfold mean_photon_gaussian, execute; intros H.
  destruct (mean_photon_gaussian_queue (2 ^ num_qubits) weights)
    as [queue|e]; simpl in H; [|discriminate].
  destruct (apply_queue dev_gaussian queue (reset dev_gaussian)) as [s|e];
    simpl in H; [|discriminate].
  destruct (rmap (fun e => expval dev_gaussian e s) _) as [ev|e] eqn:E;
    simpl in H; [|discriminate].
  inversion H; subst; simpl.
  apply rmap_length in E.
  rewrite length_map in E; unfold range in E; rewrite length_seq in E.
  auto.
Qed.


(** Building the generator's circuit over [n] modes from weights of
    fewer than [n] rows raises [IndexError].  (This is the body of the
    node, as its first call runs it.) *)
Theorem mean_photon_gaussian_queue_short_weights (n : nat)
    (weights : list (list F)) :
  length weights < n ->
  mean_photon_gaussian_queue n weights = Raise IndexError.
Proof.
  intros Hshort.
  destruct (mean_photon_gaussian_queue n weights) as [queue|e] eqn:E.
  - destruct (gaussian_queue_inv n weights queue E) as (gates & _ & Hg).
    destruct (Forall2_nth_error _ _ _ (length weights) (length weights) Hg
                (nth_error_range _ _ Hshort))
      as (g & _ & row & _ & _ & _ & HW & _).
    assert (length weights < length weights)
      by (apply nth_error_Some; congruence); lia.
  - now rewrite (gaussian_queue_raise_inv n weights e E).
Qed.
End CircuitShape.

(** ** More on the cost functions in exact arithmetic *)

Section CostAlgebra.
Local Open Scope R_scope.
Variables dev dev_gaussian : Device R.
Variable rng : Type.
Variable num_qubits : nat.

Local Abbreviation world := (world dev dev_gaussian rng).

Lemma Rleb_le (a b : R) : Rleb a b = true -> a <= b.
Proof. unfold Rleb; destruct (Rle_dec a b); [auto|discriminate]. Qed.

Lemma prob_real_true_inv (values : list R)
    (disc_weights : list (list (list R))) (w : world) (p : R) :
  value (prob_real_true num_qubits values disc_weights w) = Ok p ->
  exists r,
    value (real_disc_circuit num_qubits values disc_weights w) = Ok r /\
    -1 <= r <= 1 /\ p = (r + 1) / 2.
Proof.
  intros H.
  destruct (prob_real_true_checked dev dev_gaussian rng num_qubits values
              disc_weights w p H) as (r & Hr & Hlo & Hhi & Hp & _).
  exists r; repeat split; try exact Hr; try exact Hp.
  - exact (Rleb_le _ _ Hlo).
  - exact (Rleb_le _ _ Hhi).
Qed.

Lemma disc_cost_value (fake_values real_values : list R)
    (disc_weights : list (list (list R))) (w : world) :
  value (disc_cost num_qubits fake_values real_values disc_weights w) =
  (pf <- value (prob_real_true num_qubits fake_values disc_weights w) ;;
   pr <- value (prob_real_true num_qubits real_values disc_weights w) ;;
   Ok (pf - pr))%result.
Proof.
  unfold disc_cost, bind at 1.
  change (prob_fake_true num_qubits fake_values disc_weights w)
    with (prob_real_true num_qubits fake_values disc_weights w).
  destruct (prob_real_true num_qubits fake_values disc_weights w)
    as [[pf w1]|e]; simpl; [|reflexivity].
  rewrite (prob_real_true_any_world dev dev_gaussian rng num_qubits
             real_values disc_weights w w1).
  unfold bind, ret.
  destruct (prob_real_true num_qubits real_values disc_weights w1)
    as [[pr w2]|e]; reflexivity.
Qed.

(** A probability that [prob_real_true] or [prob_fake_true] returns lies
    between 0 and 1.  Line 190 checks [r <= 1] where [p <= 1] is meant;
    with the check of line 187 the upper bound holds all the same. *)
Theorem prob_true_range (values : list R)
    (disc_weights : list (list (list R))) (w : world) (p : R) :
  value (prob_real_true num_qubits values disc_weights w) = Ok p \/
  value (prob_fake_true num_qubits values disc_weights w) = Ok p ->
  0 <= p <= 1.
Proof.
  intros H.
  assert (Hp : value (prob_real_true num_qubits values disc_weights w) = Ok p)
    by (destruct H as [H|H]; exact H).
  destruct (prob_real_true_inv values disc_weights w p Hp)
    as (r & _ & Hr & ->); lra.
Qed.

(** An expectation value outside [-1, 1] is stopped by the assertion of
    line 187 (line 204 for fake data). *)
Theorem prob_true_out_of_range (values : list R)
    (disc_weights : list (list (list R))) (w w' : world) (r : R) :
  real_disc_circuit num_qubits values disc_weights w = Ok (r, w') ->
  r < -1 \/ 1 < r ->
  prob_real_true num_qubits values disc_weights w = Raise AssertionError /\
  prob_fake_true num_qubits values disc_weights w = Raise AssertionError.
Proof.
  intros Hr Hout.
  assert (H : prob_real_true num_qubits values disc_weights w
              = Raise AssertionError).
  { unfold prob_real_true, bind, assert, lift; rewrite Hr; simpl.
    destruct Hout as [Hlt|Hgt].
    - now rewrite (Rleb_false _ _ Hlt).
    - now rewrite (Rleb_false _ _ Hgt), Bool.andb_false_r. }
  split; exact H.
Qed.

(** The discriminator's cost is a difference of two probabilities: it
    lies between -1 and 1. *)
Theorem disc_cost_range (fake_values real_values : list R)
    (disc_weights : list (list (list R))) (w : world) (cost : R) :
  value (disc_cost num_qubits fake_values real_values disc_weights w)
    = Ok cost ->
  -1 <= cost <= 1.
Proof.
  rewrite disc_cost_value; intros H.
  destruct (value (prob_real_true num_qubits fake_values disc_weights w))
    as [pf|e] eqn:Ef; simpl in H; [|discriminate].
  destruct (value (prob_real_true num_qubits real_values disc_weights w))
    as [pr|e] eqn:Er; simpl in H; [|discriminate].
  inversion H; subst.
  destruct (prob_real_true_inv _ _ _ _ Ef) as (rf & _ & Hf & ->).
  destruct (prob_real_true_inv _ _ _ _ Er) as (rr & _ & Hr & ->).
  lra.
Qed.

(** Exchanging the fake and the real vector negates the discriminator's
    cost, and the cost of a vector against itself is zero: the
    discriminator tells the two apart only by what they contain. *)
Theorem disc_cost_antisymmetric (fake_values real_values : list R)
    (disc_weights : list (list (list R))) (w : world) (cost : R) :
  value (disc_cost num_qubits fake_values real_values disc_weights w)
    = Ok cost ->
  value (disc_cost num_qubits real_values fake_values disc_weights w)
    = Ok (- cost) /\
  value (disc_cost num_qubits fake_values fake_values disc_weights w) = Ok 0.
Proof.
  rewrite !disc_cost_value; intros H.
  destruct (value (prob_real_true num_qubits fake_values disc_weights w))
    as [pf|e]; simpl in H; [|discriminate].
  destruct (value (prob_real_true num_qubits real_values disc_weights w))
    as [pr|e]; simpl in H; [|discriminate].
  inversion H; subst; simpl; split; f_equal; lra.
Qed.

(** The generator's cost is a negated probability: it lies between -1
    and 0. *)
Theorem gen_cost_range (params : list (list R))
    (disc_weights : list (list (list R))) (w : world) (cost : R) :
  value (gen_cost num_qubits params disc_weights w) = Ok cost ->
  -1 <= cost <= 0.
Proof.
  unfold gen_cost, bind at 1; intros H.
  destruct (mean_photon_gaussian num_qubits params w) as [[fake w1]|e];
    simpl in H; [|discriminate].
  unfold bind at 1, assert, lift in H.
  destruct (assert_ _) as [[]|e];
    simpl in H; [|discriminate].
  unfold bind, ret in H.
  destruct (prob_fake_true num_qubits (normalize fake) disc_weights w1)
    as [[p w2]|e] eqn:E; simpl in H; [|discriminate].
  inversion H; subst.
  assert (Hp : value (prob_real_true num_qubits (normalize fake)
                        disc_weights w1) = Ok p)
    by (change (prob_real_true num_qubits (normalize fake) disc_weights w1)
          with (prob_fake_true num_qubits (normalize fake) disc_weights w1);
        now rewrite E).
  destruct (prob_real_true_inv _ _ _ _ Hp) as (r & _ & Hr & ->); lra.
Qed.

(** In exact arithmetic the assertion of line 308 never stops the report:
    the report is the pair of the two probabilities, each as its function
    returns it, and fails only where one of them or the lookup of row 0
    does. *)
Theorem disc_report_value (fake_values : list R)
    (real_values : list (list R)) (disc_weights : list (list (list R)))
    (w : world) :
  value (disc_report num_qubits fake_values real_values disc_weights w) =
  (row <- np_index real_values 0 ;;
   p_R <- value (prob_real_true num_qubits row disc_weights w) ;;
   p_F <- value (prob_fake_true num_qubits fake_values disc_weights w) ;;
   Ok (p_R, p_F))%result.
Proof.
  unfold disc_report, bind at 1, lift.
  destruct (np_index real_values 0) as [row|e]; simpl; [|reflexivity].
  unfold bind at 1.
  destruct (prob_real_true num_qubits row disc_weights w)
    as [[p_R w1]|e] eqn:E; simpl; [|reflexivity].
  assert (Hp : 0 <= p_R <= 1).
  { assert (Hv : value (prob_real_true num_qubits row disc_weights w)
                 = Ok p_R) by now rewrite E.
    destruct (prob_real_true_inv _ _ _ _ Hv) as (r & _ & Hr & ->); lra. }
  unfold bind at 1, assert, lift; simpl.
  rewrite (Rleb_true _ _ (proj1 Hp)), (Rleb_true _ _ (proj2 Hp)); simpl.
  change (@prob_fake_true R _ dev dev_gaussian rng)
    with (@prob_real_true R _ dev dev_gaussian rng).
  rewrite (prob_real_true_any_world dev dev_gaussian rng num_qubits
             fake_values disc_weights w w1).
  unfold bind, ret.
  destruct (prob_real_true num_qubits fake_values disc_weights w1)
    as [[p_F w2]|e]; reflexivity.
Qed.
End CostAlgebra.

(** ** The cost functions in binary64 *)

Module Binary64Costs.
Import Binary64.

(** An expectation value that is NaN or infinite is stopped by the
    assertion of line 187 (line 204 for fake data): no probability is
    computed from it. *)
Theorem prob_true_rejects_non_finite {dev dev_gaussian : Device float}
    {rng : Type} (num_qubits : nat) (values : list float)
    (disc_weights : list (list (list float)))
    (w w' : world dev dev_gaussian rng) (r : float) :
  real_disc_circuit num_qubits values disc_weights w = Ok (r, w') ->
  match r with S754_nan | S754_infinity _ => True | _ => False end ->
  prob_real_true num_qubits values disc_weights w = Raise AssertionError /\
  prob_fake_true num_qubits values disc_weights w = Raise AssertionError.
Proof.
  intros Hr Hnf.
  assert (H : prob_real_true num_qubits values disc_weights w
              = Raise AssertionError).
  { unfold prob_real_true, bind, assert, lift; rewrite Hr.
    destruct r as [s|[|]| |s m e]; try contradiction; reflexivity. }
  split; exact H.
Qed.

(** A generator that returns no photons at all, zero on every mode,
    cannot be scored: its output normalizes to NaN and [gen_cost] stops
    at the assertion of line 238. *)
Theorem gen_cost_no_photons {dev dev_gaussian : Device float} {rng : Type}
    (num_qubits : nat) (params : list (list float))
    (disc_weights : list (list (list float)))
    (w w1 : world dev dev_gaussian rng) (signs : list bool) :
  mean_photon_gaussian num_qubits params w = Ok (map S754_zero signs, w1) ->
  gen_cost num_qubits params disc_weights w = Raise AssertionError.
Proof.
  intros Hg; unfold gen_cost, bind at 1; rewrite Hg.
  unfold bind at 1, assert, lift.
  now rewrite Binary64Normalizer.normalize_zeros,
              Binary64Normalizer.nans_fail_check.
Qed.
End Binary64Costs.

(** ** The optimization loops *)

Section LoopProperties.
Context {F : Type} {SF : Scalar F}.
Variables dev dev_gaussian : Device F.
Variable rng : Type.
Variable num_qubits : nat.
Variable opt_step :
  (list (list (list F)) -> M dev dev_gaussian rng F) ->
  list (list (list F)) -> M dev dev_gaussian rng (list (list (list F))).
Variable randint : Z -> Z -> M dev dev_gaussian rng Z.
Variable gen_opt_step :
  (list (list F) -> M dev dev_gaussian rng F) ->
  list (list F) -> M dev dev_gaussian rng (list (list F)).

Local Abbreviation world := (world dev dev_gaussian rng).

Lemma bind_assoc {A B C} (m : M dev dev_gaussian rng A)
    (k : A -> M dev dev_gaussian rng B) (h : B -> M dev dev_gaussian rng C)
    (w : world) :
  bind (bind m k) h w = bind m (fun a => bind (k a) h) w.
Proof.
  unfold bind; destruct (m w) as [[a w1]|e]; reflexivity.
Qed.

Lemma bind_cong {A B} (m : M dev dev_gaussian rng A)
    (k1 k2 : A -> M dev dev_gaussian rng B) (w : world) :
  (forall a w1, k1 a w1 = k2 a w1) -> bind m k1 w = bind m k2 w.
Proof.
  intros H; unfold bind; destruct (m w) as [[a w1]|e]; [apply H|reflexivity].
Qed.

(** Steps of the discriminator's loop add up: [a + b] steps are [a]
    steps followed by [b] steps from the weights and the world that the
    first [a] left; if the first [a] raise, so does the whole. *)
Theorem disc_loop_app (a b : nat) (fake_values : list F)
    (real_values : list (list F)) (disc_weights : list (list (list F)))
    (w : world) :
  disc_loop num_qubits opt_step randint (a + b) fake_values real_values
    disc_weights w =
  bind (disc_loop num_qubits opt_step randint a fake_values real_values
          disc_weights)
       (fun disc_weights' =>
          disc_loop num_qubits opt_step randint b fake_values real_values
            disc_weights') w.
Proof.
  revert disc_weights w; induction a as [|a IH]; intros disc_weights w.
  - reflexivity.
  - cbn [Nat.add disc_loop].
    rewrite bind_assoc; apply bind_cong; intros j w1.
    rewrite bind_assoc; apply bind_cong; intros row w2.
    rewrite bind_assoc; apply bind_cong; intros dw' w3.
    rewrite bind_assoc; apply bind_cong; intros c w4.
    apply IH.
Qed.

(** Without real data the discriminator cannot be trained: on an empty
    [real_values] the loop raises in its first iteration, at the latest
    when it looks up the row it drew. *)
Theorem disc_optimization_no_data (steps : Z) (fake_values : list F)
    (disc_weights : list (list (list F))) (w : world) :
  (0 < steps)%Z ->
  exists e,
    disc_optimization num_qubits opt_step randint steps fake_values []
      disc_weights w = Raise e.
Proof.
  intros Hsteps; unfold disc_optimization.
  destruct (Z.to_nat steps) as [|k] eqn:E; [lia|].
  cbn [disc_loop length]; unfold bind at 1.
  destruct (randint 0 (Z.of_nat 0) w) as [[j w1]|e]; [|eauto].
  unfold bind at 1, lift; rewrite np_index_nil; eauto.
Qed.

(** Steps of the generator's loop add up in the same way. *)
Theorem gen_loop_app (a b : nat) (gen_weights : list (list F))
    (disc_weights : list (list (list F))) (w : world) :
  gen_loop num_qubits gen_opt_step (a + b) gen_weights disc_weights w =
  bind (gen_loop num_qubits gen_opt_step a gen_weights disc_weights)
       (fun gen_weights' =>
          gen_loop num_qubits gen_opt_step b gen_weights' disc_weights) w.
Proof.
  revert gen_weights w; induction a as [|a IH]; intros gen_weights w.
  - reflexivity.
  - cbn [Nat.add gen_loop].
    rewrite bind_assoc; apply bind_cong; intros gw' w1.
    rewrite bind_assoc; apply bind_cong; intros c w2.
    apply IH.
Qed.
End LoopProperties.

(** ** Instances *)

Section ShapeInstances.
Local Open Scope Z_scope.

Lemma layer_operations_witness :
  let W := [[1; 2; 3]; [4; 5; 6]] in
  let ops := [Rot 1 2 3 0; Rot 4 5 6 1; CNOT 0 1; CNOT 1 0] in
  layer 2 W = Ok ops /\
  length ops = (2 * 2)%nat /\
  skipn 2 ops = map (fun i => CNOT i ((i + 1) mod 2)) (range 2) /\
  forall i, (i < 2)%nat ->
    exists row a b c,
      nth_error W i = Some row /\ firstn 3 row = [a; b; c] /\
      nth_error ops i = Some (Rot a b c i).
Proof.
  intros W ops.
  assert (H : layer 2 W = Ok ops) by reflexivity.
  exact (conj H (layer_operations 2 W ops H)).
Defined.

Lemma layer_index_error_witness :
  (1 < 2)%nat /\
  (forall row, nth_error [[1; 2; 3]] 1 = Some row -> (length row < 3)%nat) /\
  layer 2 [[1; 2; 3]] = Raise IndexError.
Proof.
  assert (Hi : (1 < 2)%nat) by lia.
  assert (Hrow : forall row, nth_error [[1; 2; 3]] 1 = Some row ->
                             (length row < 3)%nat)
    by (intros row Hr; discriminate Hr).
  exact (conj Hi (conj Hrow (layer_index_error 2 [[1; 2; 3]] 1 Hi Hrow))).
Defined.

Lemma layer_ring_witness :
  let W := [[1; 2; 3]; [4; 5; 6]] in
  let ops := [Rot 1 2 3 0; Rot 4 5 6 1; CNOT 0 1; CNOT 1 0] in
  layer 2 W = Ok ops /\ (2 <= 2)%nat /\
  Forall (fun op => match op with
                    | CNOT c t => (c < 2)%nat /\ (t < 2)%nat /\ c <> t
                    | _ => False
                    end) (skipn 2 ops) /\
  Permutation (map (fun i => (i + 1) mod 2)%nat (range 2)) (range 2).
Proof.
  intros W ops.
  assert (H : layer 2 W = Ok ops) by reflexivity.
  exact (conj H (conj (le_n 2) (layer_ring 2 W ops H (le_n 2)))).
Defined.

Lemma real_disc_circuit_queue_shape_witness :
  let weights := [[[1; 2; 3]; [4; 5; 6]]] in
  let queue := [QubitStateVector [1; 0; 0; 0] [0%nat; 1%nat];
                Rot 1 2 3 0; Rot 4 5 6 1; CNOT 0 1; CNOT 1 0] in
  real_disc_circuit_queue 2 [1; 0; 0; 0] weights = Ok queue /\
  hd_error queue = Some (QubitStateVector [1; 0; 0; 0] (range 2)) /\
  length queue = (1 + length weights * (2 * 2))%nat /\
  Forall (fun op => match op with
                    | Rot _ _ _ wire => (wire < 2)%nat
                    | CNOT c t => (c < 2)%nat /\ (t < 2)%nat
                    | _ => False
                    end) (tl queue).
Proof.
  intros weights queue.
  assert (H : real_disc_circuit_queue 2 [1; 0; 0; 0] weights = Ok queue)
    by reflexivity.
  exact (conj H (real_disc_circuit_queue_shape 2 [1; 0; 0; 0] weights
                   queue H)).
Defined.

Lemma mean_photon_gaussian_queue_shape_witness :
  let weights := [[1; 2; 3]; [4; 5; 6]] in
  let queue := [Displacement 1 2 0; Rotation 3 0;
                Displacement 4 5 1; Rotation 6 1] in
  mean_photon_gaussian_queue 2 weights = Ok queue /\
  length queue = (2 * 2)%nat /\
  forall i, (i < 2)%nat ->
    exists row a b c,
      nth_error weights i = Some row /\ firstn 3 row = [a; b; c] /\
      nth_error queue (2 * i) = Some (Displacement a b i) /\
      nth_error queue (2 * i + 1) = Some (Rotation c i).
Proof.
  intros weights queue.
  assert (H : mean_photon_gaussian_queue 2 weights = Ok queue)
    by reflexivity.
  exact (conj H (mean_photon_gaussian_queue_shape 2 weights queue H)).
Defined.

Lemma real_disc_circuit_queue_short_layer_witness :
  let W := [[1; 2; 3]] in
  In W [W] /\ (length W < 2)%nat /\
  real_disc_circuit_queue 2 [1; 0; 0; 0] [W] = Raise IndexError.
Proof.
  intros W.
  assert (Hin : In W [W]) by (left; reflexivity).
  assert (Hlen : (length W < 2)%nat) by (simpl; lia).
  exact (conj Hin (conj Hlen
           (real_disc_circuit_queue_short_layer 2 [1; 0; 0; 0] [W] W
              Hin Hlen))).
Defined.

Lemma mean_photon_gaussian_queue_short_weights_witness :
  let weights := [[1; 2; 3]; [4; 5; 6]; [7; 8; 9]] in
  (length weights < 4)%nat /\
  mean_photon_gaussian_queue 4 weights = Raise IndexError.
Proof.
  intros weights.
  assert (H : (length weights < 4)%nat) by (simpl; lia).
  exact (conj H (mean_photon_gaussian_queue_short_weights 4 weights H)).
Defined.
End ShapeInstances.

Module Binary64Instances.
Import Binary64.

Local Abbreviation zero := (of_Z 0).
Local Abbreviation one := (of_Z 1).
Local Abbreviation small_world64 :=
  (world (prepare_measure_device (F:=float) 2)
         (vacuum_displacement_device (F:=float) (2 ^ 2)) unit).

Lemma load_real_values_shape_witness :
  let file := [[of_Z 10; of_Z 1; of_Z 2; of_Z 3];
               [of_Z 20; of_Z 4; of_Z 5; of_Z 6]] in
  let real_values := [[of_Z 1; of_Z 2; of_Z 3; of_Z 4];
                      [of_Z 1; of_Z 2; of_Z 3; of_Z 4]] in
  load_real_values 2 [file; file] = Ok real_values /\
  length real_values = length [file; file] /\
  Forall (fun row => length row = 2 ^ 2) real_values.
Proof.
  intros file real_values.
  assert (H : load_real_values 2 [file; file] = Ok real_values)
    by (vm_compute; reflexivity).
  exact (conj H (load_real_values_shape 2 [file; file] real_values H)).
Defined.

Lemma load_file_not_a_table_witness :
  let lines := [[of_Z 0; of_Z 1; of_Z 2; of_Z 3]] in
  (length lines <= 1 \/ Forall (fun l => length l = 1) lines) /\
  load_file 4 lines = Raise IndexError.
Proof.
  intros lines.
  assert (H : length lines <= 1 \/ Forall (fun l => length l = 1) lines)
    by (left; simpl; lia).
  exact (conj H (load_file_not_a_table 4 lines H)).
Defined.

Lemma load_file_too_narrow_witness :
  let lines := [[of_Z 10; of_Z 1; of_Z 2]; [of_Z 20; of_Z 4; of_Z 5]] in
  2 <= length lines /\ 2 <= 3 < 4 /\
  Forall (fun l => length l = 3) lines /\
  load_file 4 lines = Raise ValueError.
Proof.
  intros lines.
  assert (Hlen : 2 <= length lines) by (simpl; lia).
  assert (Hc : 2 <= 3 < 4) by lia.
  assert (Hw : Forall (fun l => length l = 3) lines) by (repeat constructor).
  exact (conj Hlen (conj Hc (conj Hw
           (load_file_too_narrow 4 3 lines Hlen Hc Hw)))).
Defined.

Lemma normalize_real_values_checked_witness :
  let real_values := [[of_Z 3; of_Z 4]] in
  let rows := [[fdiv (of_Z 3) (of_Z 5); fdiv (of_Z 4) (of_Z 5)]] in
  normalize_real_values real_values = Ok rows /\
  length rows = length real_values /\
  Forall (fun row => unit_norm row = true) rows.
Proof.
  intros real_values rows.
  assert (H : normalize_real_values real_values = Ok rows)
    by (vm_compute; reflexivity).
  exact (conj H (normalize_real_values_checked real_values rows H)).
Defined.

Lemma mean_photon_gaussian_output_witness :
  let w : small_world64 := small_world 2 in
  let weights := repeat [one; zero; zero] 4 in
  let w' : small_world64 :=
    @Build_world float (prepare_measure_device 2)
      (vacuum_displacement_device (2 ^ 2)) unit
      (dev_state w) (repeat (Some one) 4) tt in
  mean_photon_gaussian 2 weights w = Ok (repeat one 4, w') /\
  length (repeat one 4) = 2 ^ 2 /\
  dev_state w' = dev_state w /\ np_random w' = np_random w.
Proof.
  intros w weights w'.
  assert (H : mean_photon_gaussian 2 weights w = Ok (repeat one 4, w'))
    by reflexivity.
  exact (conj H (mean_photon_gaussian_output 2 weights w w' (repeat one 4) H)).
Defined.

Lemma prob_true_rejects_non_finite_witness :
  let w : small_world64 := small_world 2 in
  let values := [nan; zero; zero; zero] in
  let w' : small_world64 :=
    @Build_world float (prepare_measure_device 2)
      (vacuum_displacement_device (2 ^ 2)) unit
      values (dev_gaussian_state w) tt in
  real_disc_circuit 2 values [] w = Ok (nan, w') /\
  prob_real_true 2 values [] w = Raise AssertionError /\
  prob_fake_true 2 values [] w = Raise AssertionError.
Proof.
  intros w values w'.
  assert (H : real_disc_circuit 2 values [] w = Ok (nan, w'))
    by reflexivity.
  exact (conj H (Binary64Costs.prob_true_rejects_non_finite 2 values [] w w'
                   nan H I)).
Defined.

Lemma gen_cost_no_photons_witness :
  let w : small_world64 := small_world 2 in
  let params := repeat [zero; zero; zero] 4 in
  let signs := [false; false; false; false] in
  let w1 : small_world64 :=
    @Build_world float (prepare_measure_device 2)
      (vacuum_displacement_device (2 ^ 2)) unit
      (dev_state w) (repeat (Some zero) 4) tt in
  mean_photon_gaussian 2 params w = Ok (map S754_zero signs, w1) /\
  gen_cost 2 params [] w = Raise AssertionError.
Proof.
  intros w params signs w1.
  assert (H : mean_photon_gaussian 2 params w = Ok (map S754_zero signs, w1))
    by reflexivity.
  exact (conj H (Binary64Costs.gen_cost_no_photons 2 params [] w w1 signs H)).
Defined.

Lemma disc_optimization_no_data_witness :
  (0 < 50)%Z /\
  exists e,
    disc_optimization 2 (fun _ x => ret x) (fun lo _ => ret lo) 50
      [one; zero; zero; zero] [] []
      (small_world 2 : small_world64) = Raise e.
Proof.
  assert (H : (0 < 50)%Z) by lia.
  exact (conj H (disc_optimization_no_data _ _ unit 2
                   (fun _ x => ret x) (fun lo _ => ret lo) 50
                   [one; zero; zero; zero] [] (small_world 2) H)).
Defined.
End Binary64Instances.

Section RealInstances.
Local Open Scope R_scope.

Local Abbreviation small_world_R :=
  (world (prepare_measure_device (F:=R) 2)
         (vacuum_displacement_device (F:=R) (2 ^ 2)) unit).

Lemma basis_state_probability :
  let w : small_world_R := small_world 2 in
  let r := np_sum (square [1; 0]) - np_sum (square [0; 0]) in
  value (prob_real_true 2 [1; 0; 0; 0] [] w) = Ok ((r + 1) / 2).
Proof.
  intros w r.
  pose (w' := @Build_world R (prepare_measure_device 2)
                (vacuum_displacement_device (2 ^ 2)) unit
                [1; 0; 0; 0] (dev_gaussian_state w) tt).
  assert (Hr : real_disc_circuit 2 [1; 0; 0; 0] [] w = Ok (r, w'))
    by reflexivity.
  assert (Hb : -1 <= r <= 1) by (unfold r, np_sum; simpl; lra).
  now rewrite (prob_real_true_affine _ _ unit 2 [1; 0; 0; 0] [] w w' r Hr Hb).
Defined.

Lemma prob_true_range_witness :
  let w : small_world_R := small_world 2 in
  let r := np_sum (square [1; 0]) - np_sum (square [0; 0]) in
  value (prob_real_true 2 [1; 0; 0; 0] [] w) = Ok ((r + 1) / 2) /\
  0 <= (r + 1) / 2 <= 1.
Proof.
  intros w r.
  pose proof basis_state_probability as Hv; cbv zeta in Hv.
  exact (conj Hv (prob_true_range _ _ unit 2 [1; 0; 0; 0] [] w
                    ((r + 1) / 2) (or_introl Hv))).
Defined.

Lemma prob_true_out_of_range_witness :
  let w : small_world_R := small_world 2 in
  let r := np_sum (square [2; 0]) - np_sum (square [0; 0]) in
  let w' : small_world_R :=
    @Build_world R (prepare_measure_device 2)
      (vacuum_displacement_device (2 ^ 2)) unit
      [2; 0; 0; 0] (dev_gaussian_state w) tt in
  real_disc_circuit 2 [2; 0; 0; 0] [] w = Ok (r, w') /\
  (r < -1 \/ 1 < r) /\
  prob_real_true 2 [2; 0; 0; 0] [] w = Raise AssertionError /\
  prob_fake_true 2 [2; 0; 0; 0] [] w = Raise AssertionError.
Proof.
  intros w r w'.
  assert (Hr : real_disc_circuit 2 [2; 0; 0; 0] [] w = Ok (r, w'))
    by reflexivity.
  assert (Hout : r < -1 \/ 1 < r) by (right; unfold r, np_sum; simpl; lra).
  exact (conj Hr (conj Hout
           (prob_true_out_of_range _ _ unit 2 [2; 0; 0; 0] [] w w' r
              Hr Hout))).
Defined.

Lemma small_device_probability (a b c d : R) :
  let r := np_sum (square [a; b]) - np_sum (square [c; d]) in
  -1 <= r <= 1 ->
  value (prob_real_true 2 [a; b; c; d] [] (small_world 2 : small_world_R))
    = Ok ((r + 1) / 2).
Proof.
  intros r Hb.
  pose (w := small_world 2 : small_world_R).
  pose (w' := @Build_world R (prepare_measure_device 2)
                (vacuum_displacement_device (2 ^ 2)) unit
                [a; b; c; d] (dev_gaussian_state w) tt).
  assert (Hr : real_disc_circuit 2 [a; b; c; d] [] w = Ok (r, w'))
    by reflexivity.
  fold w.
  now rewrite (prob_real_true_affine _ _ unit 2 [a; b; c; d] [] w w' r Hr Hb).
Defined.

Lemma small_device_cost :
  let w : small_world_R := small_world 2 in
  let rf := np_sum (square [0; 0]) - np_sum (square [0; 1]) in
  let rr := np_sum (square [1; 0]) - np_sum (square [0; 0]) in
  value (disc_cost 2 [0; 0; 0; 1] [1; 0; 0; 0] [] w)
    = Ok ((rf + 1) / 2 - (rr + 1) / 2).
Proof.
  cbv zeta.
  rewrite disc_cost_value.
  rewrite (small_device_probability 0 0 0 1)
    by (unfold np_sum; simpl; lra).
  rewrite (small_device_probability 1 0 0 0)
    by (unfold np_sum; simpl; lra).
  reflexivity.
Defined.

Lemma disc_cost_range_witness :
  let w : small_world_R := small_world 2 in
  let rf := np_sum (square [0; 0]) - np_sum (square [0; 1]) in
  let rr := np_sum (square [1; 0]) - np_sum (square [0; 0]) in
  let cost := (rf + 1) / 2 - (rr + 1) / 2 in
  value (disc_cost 2 [0; 0; 0; 1] [1; 0; 0; 0] [] w) = Ok cost /\
  -1 <= cost <= 1.
Proof.
  intros w rf rr cost.
  pose proof small_device_cost as Hc; cbv zeta in Hc.
  exact (conj Hc (disc_cost_range _ _ unit 2 [0; 0; 0; 1] [1; 0; 0; 0] []
                    w cost Hc)).
Defined.

Lemma disc_cost_antisymmetric_witness :
  let w : small_world_R := small_world 2 in
  let rf := np_sum (square [0; 0]) - np_sum (square [0; 1]) in
  let rr := np_sum (square [1; 0]) - np_sum (square [0; 0]) in
  let cost := (rf + 1) / 2 - (rr + 1) / 2 in
  value (disc_cost 2 [0; 0; 0; 1] [1; 0; 0; 0] [] w) = Ok cost /\
  value (disc_cost 2 [1; 0; 0; 0] [0; 0; 0; 1] [] w) = Ok (- cost) /\
  value (disc_cost 2 [0; 0; 0; 1] [0; 0; 0; 1] [] w) = Ok 0.
Proof.
  intros w rf rr cost.
  pose proof small_device_cost as Hc; cbv zeta in Hc.
  exact (conj Hc (disc_cost_antisymmetric _ _ unit 2 [0; 0; 0; 1]
                    [1; 0; 0; 0] [] w cost Hc)).
Defined.

Lemma gen_cost_range_witness :
  let w : small_world_R := small_world 2 in
  let params := [[1; 0; 0]; [1; 0; 0]; [1; 0; 0]; [1; 0; 0]] in
  let nv := normalize [1 * 1; 1 * 1; 1 * 1; 1 * 1] in
  let r := np_sum (square (firstn 2 nv)) - np_sum (square (skipn 2 nv)) in
  value (gen_cost 2 params [] w) = Ok (- ((r + 1) / 2)) /\
  -1 <= - ((r + 1) / 2) <= 0.
Proof.
  intros w params nv r.
  pose (fake := [1 * 1; 1 * 1; 1 * 1; 1 * 1]).
  pose (w1 := @Build_world R (prepare_measure_device 2)
                (vacuum_displacement_device (2 ^ 2)) unit
                (dev_state w) [Some 1; Some 1; Some 1; Some 1] tt).
  pose (w2 := @Build_world R (prepare_measure_device 2)
                (vacuum_displacement_device (2 ^ 2)) unit
                nv (dev_gaussian_state w1) tt).
  assert (Hg : mean_photon_gaussian 2 params w = Ok (fake, w1))
    by reflexivity.
  assert (Hn : euclidean_norm fake <> 0).
  { unfold euclidean_norm, fake, np_sum; simpl.
    apply Rgt_not_eq, Rlt_gt, sqrt_lt_R0; lra. }
  assert (Hr : real_disc_circuit 2 nv [] w1 = Ok (r, w2)) by reflexivity.
  assert (Hb : -1 <= r <= 1).
  { unfold r, nv, normalize, np_sum, square; simpl; lra. }
  assert (Hc : value (gen_cost 2 params [] w) = Ok (- ((r + 1) / 2))).
  { unfold gen_cost, bind at 1; rewrite Hg.
    unfold bind at 1, assert, lift.
    rewrite (normalize_passes_check fake Hn); simpl.
    unfold bind, ret.
    change (prob_fake_true 2 (normalize fake) [] w1)
      with (prob_real_true 2 nv [] w1).
    now rewrite (prob_real_true_affine _ _ unit 2 nv [] w1 w2 r Hr Hb). }
  exact (conj Hc (gen_cost_range _ _ unit 2 params [] w _ Hc)).
Defined.
End RealInstances.
